(** * Backup codes of the two-factor plugin

    A shallow embedding of
    [packages/better-auth/src/plugins/two-factor/backup-codes/index.ts]
    and the properties of its recovery-code subsystem.

    JavaScript strings are modelled as [string]; every [ascii] stands for
    one code unit below 0x100.  Promises are modelled by their outcome: a
    fulfilled promise is [Ok], a rejected one (a thrown exception) is
    [Throw]. *)

From Stdlib Require Import String Ascii List Arith Bool Lia.
Import ListNotations.

Set Warnings "-register-all".

Local Open Scope list_scope.
Local Open Scope string_scope.

(* ------------------------------------------------------------------ *)
(** ** Outcomes of fallible code *)

(** The [message] of an [APIError] ([TWO_FACTOR_ERROR_CODES], and the
    literal used by the view endpoint, which has the text of
    [BACKUP_CODES_NOT_ENABLED]). *)
Inductive ErrorCode : Type :=
| BACKUP_CODES_NOT_ENABLED
| INVALID_BACKUP_CODE
| TWO_FACTOR_NOT_ENABLED.

Inductive Status : Type :=
| BAD_REQUEST
| UNAUTHORIZED.

(** What a rejected promise carries: an [APIError] of the plugin, or an
    exception of a collaborator that the handlers do not catch. *)
Inductive exn : Type :=
| APIError (status : Status) (message : ErrorCode)
| SyntaxError                 (* JSON.parse *)
| DecryptError                (* symmetricDecrypt *)
| CustomError                 (* a caller-supplied encrypt or decrypt *)
| PasswordError.              (* password.checkPassword *)

Inductive result (A : Type) : Type :=
| Ok (a : A)
| Throw (e : exn).

Arguments Ok {A} a.
Arguments Throw {A} e.

Definition bind {A B : Type} (m : result A) (k : A -> result B) : result B :=
  match m with
  | Ok a => k a
  | Throw e => Throw e
  end.

Notation "x <- m ;; k" := (bind m (fun x => k))
  (at level 61, m at next level, right associativity).

(* ------------------------------------------------------------------ *)
(** ** The JavaScript built-ins the module calls *)

Module JS.

(** [String.prototype.slice(start, end)] for [0 <= start <= end]. *)
Definition slice (s : string) (start stop : nat) : string :=
  substring start (stop - start) s.

(** [String.prototype.slice(start)] for [0 <= start]. *)
Fixpoint slice_from (s : string) (start : nat) : string :=
  match start, s with
  | 0, _ => s
  | S n, String _ r => slice_from r n
  | S _, EmptyString => EmptyString
  end.

(** [Array.prototype.includes] on strings. *)
Fixpoint includes (l : list string) (x : string) : bool :=
  match l with
  | [] => false
  | y :: r => if String.eqb y x then true else includes r x
  end.

(** [new TextDecoder("utf-8").decode(new TextEncoder().encode(s))]: the
    round trip through UTF-8 changes a string only at lone surrogates
    and at a leading byte-order mark, neither of which is a code unit
    below 0x100. *)
Definition utf8_reencode (s : string) : string := s.

End JS.

(* ------------------------------------------------------------------ *)
(** ** JSON *)

Module JSON.

Inductive json : Type :=
| JNull
| JBool (b : bool)
| JNum (lexeme : string)
| JStr (s : string)
| JArr (elems : list json)
| JObj (members : list (string * json)).

Definition dquote : ascii := "034"%char.
Definition backslash : ascii := "092"%char.

Definition hexdigit (n : nat) : ascii :=
  match n with
  | 0 => "0" | 1 => "1" | 2 => "2" | 3 => "3" | 4 => "4" | 5 => "5"
  | 6 => "6" | 7 => "7" | 8 => "8" | 9 => "9" | 10 => "a" | 11 => "b"
  | 12 => "c" | 13 => "d" | 14 => "e" | _ => "f"
  end%char.

(** [QuoteJSONString], one code unit: the two-character escapes, [\u00xx]
    for the other control characters, the unit itself otherwise. *)
Definition escape (c : ascii) : string :=
  let n := nat_of_ascii c in
  if Ascii.eqb c dquote then String backslash (String dquote EmptyString)
  else if Ascii.eqb c backslash then String backslash (String backslash EmptyString)
  else if (n =? 8)%nat then String backslash "b"
  else if (n =? 9)%nat then String backslash "t"
  else if (n =? 10)%nat then String backslash "n"
  else if (n =? 12)%nat then String backslash "f"
  else if (n =? 13)%nat then String backslash "r"
  else if (n <? 32)%nat then
    String backslash
      (String "u" (String "0" (String "0"
         (String (hexdigit (n / 16)) (String (hexdigit (n mod 16)) EmptyString)))))
  else String c EmptyString.

Fixpoint escape_all (s : string) : string :=
  match s with
  | EmptyString => EmptyString
  | String c r => escape c ++ escape_all r
  end.

Definition quote (s : string) : string :=
  String dquote (escape_all s ++ String dquote EmptyString).

(** [JSON.stringify] of a [string[]]. *)
Definition stringify (codes : list string) : string :=
  "[" ++ String.concat "," (map quote codes) ++ "]".

(** [JSON.stringify] of a [string[] | null]. *)
Definition stringify_nullable (codes : option (list string)) : string :=
  match codes with
  | Some l => stringify l
  | None => "null"
  end.

(** *** [JSON.parse] *)

Definition is_ws (c : ascii) : bool :=
  let n := nat_of_ascii c in
  (n =? 32)%nat || (n =? 9)%nat || (n =? 10)%nat || (n =? 13)%nat.

Definition is_digit (c : ascii) : bool :=
  let n := nat_of_ascii c in (48 <=? n)%nat && (n <=? 57)%nat.

Fixpoint skip_ws (s : string) : string :=
  match s with
  | String c r => if is_ws c then skip_ws r else s
  | EmptyString => s
  end.

Definition hexval (c : ascii) : option nat :=
  let n := nat_of_ascii c in
  if (48 <=? n)%nat && (n <=? 57)%nat then Some (n - 48)
  else if (97 <=? n)%nat && (n <=? 102)%nat then Some (n - 87)
  else if (65 <=? n)%nat && (n <=? 70)%nat then Some (n - 55)
  else None.

Definition hex4 (a b c d : ascii) : option nat :=
  match hexval a, hexval b, hexval c, hexval d with
  | Some x, Some y, Some z, Some w => Some (((x * 16 + y) * 16 + z) * 16 + w)
  | _, _, _, _ => None
  end.

Definition unescape (e : ascii) : option ascii :=
  if Ascii.eqb e dquote then Some dquote
  else if Ascii.eqb e backslash then Some backslash
  else if Ascii.eqb e "/" then Some "/"%char
  else if Ascii.eqb e "b" then Some "008"%char
  else if Ascii.eqb e "f" then Some "012"%char
  else if Ascii.eqb e "n" then Some "010"%char
  else if Ascii.eqb e "r" then Some "013"%char
  else if Ascii.eqb e "t" then Some "009"%char
  else None.

Definition cons_char (c : ascii) (p : option (string * string))
  : option (string * string) :=
  match p with
  | Some (s, rest) => Some (String c s, rest)
  | None => None
  end.

(** The characters of a string literal, after its opening quote, up to
    and including the closing quote.  A [\u] escape of a code unit
    above 0xFF is outside the modelled strings and is refused. *)
Fixpoint parse_chars (s : string) : option (string * string) :=
  match s with
  | EmptyString => None
  | String c r =>
    if Ascii.eqb c dquote then Some (EmptyString, r)
    else if Ascii.eqb c backslash then
      match r with
      | EmptyString => None
      | String e r' =>
        if Ascii.eqb e "u" then
          match r' with
          | String h1 (String h2 (String h3 (String h4 r''))) =>
            match hex4 h1 h2 h3 h4 with
            | Some n =>
              if (n <? 256)%nat then cons_char (ascii_of_nat n) (parse_chars r'')
              else None
            | None => None
            end
          | _ => None
          end
        else
          match unescape e with
          | Some c' => cons_char c' (parse_chars r')
          | None => None
          end
      end
    else if (nat_of_ascii c <? 32)%nat then None
    else cons_char c (parse_chars r)
  end.

Fixpoint span_digits (s : string) : string * string :=
  match s with
  | String c r =>
    if is_digit c then let (d, rest) := span_digits r in (String c d, rest)
    else (EmptyString, s)
  | EmptyString => (EmptyString, EmptyString)
  end.

(** [int]: a single [0], or a non-zero digit followed by digits. *)
Definition parse_int (s : string) : option (string * string) :=
  match s with
  | String c r =>
    if Ascii.eqb c "0" then Some ("0", r)
    else if is_digit c then
      let (d, rest) := span_digits r in Some (String c d, rest)
    else None
  | EmptyString => None
  end.

Definition parse_frac (s : string) : option (string * string) :=
  match s with
  | String c r =>
    if Ascii.eqb c "." then
      match span_digits r with
      | (EmptyString, _) => None
      | (d, rest) => Some (String c d, rest)
      end
    else Some (EmptyString, s)
  | EmptyString => Some (EmptyString, s)
  end.

Definition parse_exp (s : string) : option (string * string) :=
  match s with
  | String c r =>
    if Ascii.eqb c "e" || Ascii.eqb c "E" then
      let (sign, r1) :=
        match r with
        | String g r' =>
          if Ascii.eqb g "+" || Ascii.eqb g "-"
          then (String g EmptyString, r') else (EmptyString, r)
        | EmptyString => (EmptyString, r)
        end in
      match span_digits r1 with
      | (EmptyString, _) => None
      | (d, rest) => Some (String c (sign ++ d), rest)
      end
    else Some (EmptyString, s)
  | EmptyString => Some (EmptyString, s)
  end.

(** A number token; the value keeps its lexeme. *)
Definition parse_number (s : string) : option (string * string) :=
  let (sign, s1) :=
    match s with
    | String c r => if Ascii.eqb c "-" then ("-", r) else (EmptyString, s)
    | EmptyString => (EmptyString, s)
    end in
  match parse_int s1 with
  | None => None
  | Some (i, s2) =>
    match parse_frac s2 with
    | None => None
    | Some (f, s3) =>
      match parse_exp s3 with
      | None => None
      | Some (e, s4) => Some (sign ++ i ++ f ++ e, s4)
      end
    end
  end.

Fixpoint expect (lit s : string) : option string :=
  match lit, s with
  | EmptyString, _ => Some s
  | String a l, String b r => if Ascii.eqb a b then expect l r else None
  | String _ _, EmptyString => None
  end.

(** Recursive descent; [fuel] bounds the depth of the calls, and every
    call that does not consume a character is followed by one that
    does. *)
Fixpoint parse_value (fuel : nat) (s : string) {struct fuel}
  : option (json * string) :=
  match fuel with
  | 0 => None
  | S f =>
    match skip_ws s with
    | EmptyString => None
    | String c r =>
      if Ascii.eqb c "n" then
        match expect "ull" r with Some r' => Some (JNull, r') | None => None end
      else if Ascii.eqb c "t" then
        match expect "rue" r with Some r' => Some (JBool true, r') | None => None end
      else if Ascii.eqb c "f" then
        match expect "alse" r with Some r' => Some (JBool false, r') | None => None end
      else if Ascii.eqb c dquote then
        match parse_chars r with
        | Some (str, r') => Some (JStr str, r')
        | None => None
        end
      else if Ascii.eqb c "[" then
        match skip_ws r with
        | String d r' =>
          if Ascii.eqb d "]" then Some (JArr [], r')
          else
            match parse_elements f (String d r') with
            | Some (l, r'') => Some (JArr l, r'')
            | None => None
            end
        | EmptyString => None
        end
      else if Ascii.eqb c "{" then
        match skip_ws r with
        | String d r' =>
          if Ascii.eqb d "}" then Some (JObj [], r')
          else
            match parse_members f (String d r') with
            | Some (l, r'') => Some (JObj l, r'')
            | None => None
            end
        | EmptyString => None
        end
      else
        match parse_number (String c r) with
        | Some (lexeme, r') => Some (JNum lexeme, r')
        | None => None
        end
    end
  end

with parse_elements (fuel : nat) (s : string) {struct fuel}
  : option (list json * string) :=
  match fuel with
  | 0 => None
  | S f =>
    match parse_value f s with
    | None => None
    | Some (v, r) =>
      match skip_ws r with
      | String c r' =>
        if Ascii.eqb c "," then
          match parse_elements f r' with
          | Some (l, r'') => Some (v :: l, r'')
          | None => None
          end
        else if Ascii.eqb c "]" then Some ([v], r')
        else None
      | EmptyString => None
      end
    end
  end

with parse_members (fuel : nat) (s : string) {struct fuel}
  : option (list (string * json) * string) :=
  match fuel with
  | 0 => None
  | S f =>
    match skip_ws s with
    | String q r0 =>
      if Ascii.eqb q dquote then
        match parse_chars r0 with
        | None => None
        | Some (k, r1) =>
          match skip_ws r1 with
          | String c r2 =>
            if Ascii.eqb c ":" then
              match parse_value f r2 with
              | None => None
              | Some (v, r3) =>
                match skip_ws r3 with
                | String d r4 =>
                  if Ascii.eqb d "," then
                    match parse_members f r4 with
                    | Some (l, r5) => Some ((k, v) :: l, r5)
                    | None => None
                    end
                  else if Ascii.eqb d "}" then Some ([(k, v)], r4)
                  else None
                | EmptyString => None
                end
              end
            else None
          | EmptyString => None
          end
        end
      else None
    | EmptyString => None
    end
  end.

(** [JSON.parse]: one value, then only white space; anything else is a
    [SyntaxError]. *)
Definition parse (s : string) : result json :=
  match parse_value (2 * String.length s + 2) s with
  | Some (v, r) =>
    match skip_ws r with
    | EmptyString => Ok v
    | String _ _ => Throw SyntaxError
    end
  | None => Throw SyntaxError
  end.

End JSON.

(* ------------------------------------------------------------------ *)
(** ** Collaborators of the module *)

(** The alphabets [generateRandomString] is asked for. *)
Inductive Alphabet : Type :=
| alpha_a_z
| alpha_0_9
| alpha_A_Z.

(** The crypto helpers the module imports ([../../../crypto] and
    [../../../crypto/random]).  Their randomness is made explicit: each
    draws from a state of type [entropy] and returns the state that is
    left.  A decryption that rejects its input throws. *)
Class Crypto : Type := {
  entropy : Type;
  symmetricEncrypt : string -> string -> entropy -> string * entropy;
  symmetricDecrypt : string -> string -> result string;
  generateRandomString : nat -> list Alphabet -> entropy -> string * entropy
}.

(** [storeBackupCodes] of the options: ["plain"], ["encrypted"], or a
    pair of caller-supplied asynchronous functions. *)
Inductive StoreStrategy : Type :=
| plain
| encrypted
| custom (encrypt decrypt : string -> result string).

Module BackupCodeOptions.
(** [options?: BackupCodeOptions]; an absent field, or absent options,
    is [None]. *)
Record t : Type := make {
  amount : option nat;
  length : option nat;
  customBackupCodesGenerate : option (unit -> list string);
  storeBackupCodes : option StoreStrategy
}.
Definition undefined : t := make None None None None.
End BackupCodeOptions.

Module TwoFactorTable.
(** A row of the [twoFactor] model ([TwoFactorTable]): the owner, the
    other state of the factor (its own secret), and the persisted
    backup-code blob. *)
Record t : Type := make {
  userId : string;
  secret : string;
  backupCodes : string
}.
End TwoFactorTable.

Module Adapter.
(** Modelled from the spec: the Credential Store adapter
    ([ctx.context.adapter]) is not part of the module; a table is the
    list of its rows, [findOne] returns the first row that satisfies
    the filter on [userId], [update] rewrites the blob of that row and
    [updateMany] of every row that satisfies it. *)
Definition table : Type := list TwoFactorTable.t.

Definition matches (uid : string) (r : TwoFactorTable.t) : bool :=
  String.eqb (TwoFactorTable.userId r) uid.

Definition set_backupCodes (blob : string) (r : TwoFactorTable.t)
  : TwoFactorTable.t :=
  TwoFactorTable.make (TwoFactorTable.userId r) (TwoFactorTable.secret r) blob.

(** Modelled from the spec: [adapter.findOne] with the filter
    [userId = uid]; the first row that satisfies it, if any. *)
Definition findOne (rows : table) (uid : string) : option TwoFactorTable.t :=
  find (matches uid) rows.

(** Modelled from the spec: [adapter.update] of [backupCodes] with the
    filter [userId = uid]; one row, the one [findOne] returns. *)
Fixpoint update (rows : table) (uid blob : string) : table :=
  match rows with
  | [] => []
  | r :: rest =>
    if matches uid r then set_backupCodes blob r :: rest
    else r :: update rest uid blob
  end.

(** Modelled from the spec: [adapter.updateMany] of [backupCodes] with
    the filter [userId = uid]; every row that satisfies it. *)
Definition updateMany (rows : table) (uid blob : string) : table :=
  map (fun r => if matches uid r then set_backupCodes blob r else r) rows.
End Adapter.

(** The user of a session. *)
Record User : Type := {
  id : string;
  twoFactorEnabled : bool
}.

Module Context.
(** What a handler reads from its [ctx]: the application secret
    ([ctx.context.secret]), and the outcome, for this request, of the
    collaborators it awaits: [verifyTwoFactor(ctx)] yields the user of
    the pending sign-in, [ctx.context.session.user] is the signed-in
    user, [ctx.context.password.checkPassword] accepts or throws. *)
Record t : Type := make {
  secret : string;
  verifyTwoFactor : result User;
  session_user : User;
  checkPassword : string -> string -> result unit
}.
End Context.

(* ------------------------------------------------------------------ *)
(** ** The module *)

Module VerifyData.
Record t : Type := make { backupCodes : string; code : string }.
End VerifyData.

Module Validation.
Record t : Type := make { status : bool; updated : option (list string) }.
End Validation.

Module Generated.
Record t : Type := make {
  backupCodes : list string;
  encryptedBackupCodes : string
}.
End Generated.

(** The state a request runs in: the rows of the [twoFactor] model and
    the random source. *)
Record World `{Crypto} : Type := {
  rows : Adapter.table;
  random : entropy
}.

(** Request bodies and responses of the three endpoints. *)
Record VerifyBody : Type := {
  body_code : string;
  disableSession : option bool;
  trustDevice : option bool
}.

Inductive VerifyResponse : Type :=
| Valid (user : User)               (* [return valid(ctx)] *)
| SessionJson (user : User).        (* [ctx.json({ token, user })] *)

Record GenerateResponse : Type := {
  generated_status : bool;
  generated_backupCodes : list string
}.

Record ViewResponse : Type := {
  view_status : bool;
  view_backupCodes : string
}.

Section BackupCodes.
Context `{Crypto}.

(** A handler: state in, outcome and state out; the state a throwing
    handler leaves behind is the state at the throw. *)
Definition Handler (A : Type) : Type := World -> result A * World.

Definition ret {A} (a : A) : Handler A := fun w => (Ok a, w).

Definition throw {A} (e : exn) : Handler A := fun w => (Throw e, w).

Definition lift {A} (m : result A) : Handler A := fun w => (m, w).

Definition andThen {A B} (m : Handler A) (k : A -> Handler B) : Handler B :=
  fun w =>
    match m w with
    | (Ok a, w') => k a w'
    | (Throw e, w') => (Throw e, w')
    end.

Definition findOne (uid : string) : Handler (option TwoFactorTable.t) :=
  fun w => (Ok (Adapter.findOne (rows w) uid), w).

Definition update (uid blob : string) : Handler unit :=
  fun w => (Ok tt, {| rows := Adapter.update (rows w) uid blob;
                      random := random w |}).

Definition updateMany (uid blob : string) : Handler unit :=
  fun w => (Ok tt, {| rows := Adapter.updateMany (rows w) uid blob;
                      random := random w |}).

Definition withRandom {A} (f : entropy -> A * entropy) : Handler A :=
  fun w => let (a, e) := f (random w) in
           (Ok a, {| rows := rows w; random := e |}).

End BackupCodes.

Notation "x <~ m ;; k" := (andThen m (fun x => k))
  (at level 61, m at next level, right associativity).

Section Plugin.
Context `{Crypto}.

Definition default {A} (o : option A) (d : A) : A :=
  match o with
  | Some a => a
  | None => d
  end.

(** The second [map] of [generateBackupCodesFn]:
    [`${code.slice(0, 5)}-${code.slice(5)}`]. *)
Definition format (code : string) : string :=
  JS.slice code 0 5 ++ "-" ++ JS.slice_from code 5.

(** The first [map] of [generateBackupCodesFn]: one call of
    [generateRandomString] per slot, in order. *)
Fixpoint randomStrings (n len : nat) (e : entropy) : list string * entropy :=
  match n with
  | 0 => ([], e)
  | S n' =>
    let (code, e1) :=
      generateRandomString len [alpha_a_z; alpha_0_9; alpha_A_Z] e in
    let (codes, e2) := randomStrings n' len e1 in
    (code :: codes, e2)
  end.

Definition generateBackupCodesFn (options : BackupCodeOptions.t) (e : entropy)
  : list string * entropy :=
  let (raw, e') :=
    randomStrings (default (BackupCodeOptions.amount options) 10)
                  (default (BackupCodeOptions.length options) 10) e in
  (map format raw, e').

Definition generateBackupCodes (secret : string)
           (options : BackupCodeOptions.t) (e : entropy)
  : Generated.t * entropy :=
  let key := secret in
  let (backupCodes, e1) :=
    match BackupCodeOptions.customBackupCodesGenerate options with
    | Some customBackupCodesGenerate => (customBackupCodesGenerate tt, e)
    | None => generateBackupCodesFn options e
    end in
  let (encCodes, e2) := symmetricEncrypt key (JSON.stringify backupCodes) e1 in
  (Generated.make backupCodes encCodes, e2).

(** [z.array(z.string()).safeParse(data)]: the array itself when every
    element is a string. *)
Fixpoint strings_of (l : list JSON.json) : option (list string) :=
  match l with
  | [] => Some []
  | JSON.JStr s :: r =>
    match strings_of r with
    | Some ss => Some (s :: ss)
    | None => None
    end
  | _ :: _ => None
  end.

Definition safeParse_array_string (data : JSON.json) : option (list string) :=
  match data with
  | JSON.JArr l => strings_of l
  | _ => None
  end.

Definition getBackupCodes (backupCodes key : string)
  : result (option (list string)) :=
  decrypted <- symmetricDecrypt key backupCodes ;;
  let secret := JS.utf8_reencode decrypted in
  data <- JSON.parse secret ;;
  Ok (safeParse_array_string data).

Definition verifyBackupCode (data : VerifyData.t) (key : string)
  : result Validation.t :=
  codes <- getBackupCodes (VerifyData.backupCodes data) key ;;
  match codes with
  | None => Ok (Validation.make false None)
  | Some codes =>
    Ok (Validation.make
          (JS.includes codes (VerifyData.code data))
          (Some (filter (fun code => negb (String.eqb code (VerifyData.code data)))
                        codes)))
  end.

(** The closures of [backupCode2fa(options)]. *)
Definition storeBackupCodes (options : BackupCodeOptions.t)
           (ctx : Context.t) (backupCodes : string) : Handler string :=
  match BackupCodeOptions.storeBackupCodes options with
  | Some encrypted =>
    withRandom (symmetricEncrypt (Context.secret ctx) backupCodes)
  | Some (custom encrypt _) => lift (encrypt backupCodes)
  | Some plain | None => ret backupCodes
  end.

Definition decryptBackupCodes (options : BackupCodeOptions.t)
           (ctx : Context.t) (backupCodes : string) : result string :=
  match BackupCodeOptions.storeBackupCodes options with
  | Some encrypted => symmetricDecrypt (Context.secret ctx) backupCodes
  | Some (custom _ decrypt) => decrypt backupCodes
  | Some plain | None => Ok backupCodes
  end.

(** POST [/two-factor/verify-backup-code]. *)
Definition verifyBackupCode_endpoint (options : BackupCodeOptions.t)
           (ctx : Context.t) (body : VerifyBody) : Handler VerifyResponse :=
  user <~ lift (Context.verifyTwoFactor ctx) ;;
  twoFactor <~ findOne (id user) ;;
  match twoFactor with
  | None => throw (APIError BAD_REQUEST BACKUP_CODES_NOT_ENABLED)
  | Some twoFactor =>
    decryptedBackupCodes <~
      lift (decryptBackupCodes options ctx (TwoFactorTable.backupCodes twoFactor)) ;;
    validate <~
      lift (verifyBackupCode
              (VerifyData.make decryptedBackupCodes (body_code body))
              (Context.secret ctx)) ;;
    if negb (Validation.status validate)
    then throw (APIError UNAUTHORIZED INVALID_BACKUP_CODE)
    else
      updatedBackupCodes <~
        withRandom (symmetricEncrypt (Context.secret ctx)
                      (JSON.stringify_nullable (Validation.updated validate))) ;;
      _ <~ updateMany (id user) updatedBackupCodes ;;
      match disableSession body with
      | Some true => ret (SessionJson user)
      | Some false | None => ret (Valid user)
      end
  end.

(** POST [/two-factor/generate-backup-codes]. *)
Definition generateBackupCodes_endpoint (options : BackupCodeOptions.t)
           (ctx : Context.t) (password : string) : Handler GenerateResponse :=
  let user := Context.session_user ctx in
  if negb (twoFactorEnabled user)
  then throw (APIError BAD_REQUEST TWO_FACTOR_NOT_ENABLED)
  else
    _ <~ lift (Context.checkPassword ctx (id user) password) ;;
    backupCodes <~ withRandom (generateBackupCodes (Context.secret ctx) options) ;;
    storedBackupCodes <~
      storeBackupCodes options ctx (Generated.encryptedBackupCodes backupCodes) ;;
    _ <~ update (id user) storedBackupCodes ;;
    ret {| generated_status := true;
           generated_backupCodes := Generated.backupCodes backupCodes |}.

(** GET [/two-factor/view-backup-codes]. *)
Definition viewBackupCodes_endpoint (options : BackupCodeOptions.t)
           (ctx : Context.t) (userId : string) : Handler ViewResponse :=
  twoFactor <~ findOne userId ;;
  match twoFactor with
  | None => throw (APIError BAD_REQUEST BACKUP_CODES_NOT_ENABLED)
  | Some twoFactor =>
    backupCodes <~
      lift (getBackupCodes (TwoFactorTable.backupCodes twoFactor)
                           (Context.secret ctx)) ;;
    match backupCodes with
    | None => throw (APIError BAD_REQUEST BACKUP_CODES_NOT_ENABLED)
    | Some _ =>
      decryptedBackupCodes <~
        lift (decryptBackupCodes options ctx
                (TwoFactorTable.backupCodes twoFactor)) ;;
      ret {| view_status := true; view_backupCodes := decryptedBackupCodes |}
    end
  end.

End Plugin.

(* ------------------------------------------------------------------ *)
(** ** A reference instance of the collaborators *)

Module Reference.

(** The random source: the numbers still to be drawn; an exhausted
    source yields zeros. *)
Definition draw (e : list nat) : nat * list nat :=
  match e with
  | [] => (0, [])
  | x :: r => (x, r)
  end.

Definition charset (a : Alphabet) : string :=
  match a with
  | alpha_a_z => "abcdefghijklmnopqrstuvwxyz"
  | alpha_0_9 => "0123456789"
  | alpha_A_Z => "ABCDEFGHIJKLMNOPQRSTUVWXYZ"
  end.

Definition charsets (l : list Alphabet) : string :=
  fold_right (fun a acc => charset a ++ acc) EmptyString l.

Definition pick (chars : string) (x : nat) : ascii :=
  match String.get (x mod String.length chars) chars with
  | Some c => c
  | None => "a"%char
  end.

(** Modelled from the spec: [generateRandomString] of
    [crypto/random] is not part of the module; each character is
    drawn from the alphabets asked for, here lowercase, digits and
    uppercase. *)
Fixpoint generateRandomString (len : nat) (alphabets : list Alphabet)
         (e : list nat) : string * list nat :=
  match len with
  | 0 => (EmptyString, e)
  | S n =>
    let (x, e1) := draw e in
    let (s, e2) := generateRandomString n alphabets e1 in
    (String (pick (charsets alphabets) x) s, e2)
  end.

Fixpoint strip_prefix (p s : string) : option string :=
  match p, s with
  | EmptyString, _ => Some s
  | String a p', String b s' =>
    if Ascii.eqb a b then strip_prefix p' s' else None
  | String _ _, EmptyString => None
  end.

(** Modelled from the spec: [symmetricEncrypt] and [symmetricDecrypt]
    of [crypto] are not part of the module; the spec asks of them that
    decryption under the key of the encryption returns the data and
    that a string that is no ciphertext is rejected.  This stand-in
    seals the data behind a nonce and a key-dependent header and
    opens a string only when the header is there. *)
Definition symmetricEncrypt (key data : string) (e : list nat)
  : string * list nat :=
  let (x, e') := draw e in
  (String (JSON.hexdigit (x mod 16)) (key ++ "|" ++ data), e').

(** Modelled from the spec: [symmetricDecrypt] of [crypto]; it opens
    what [symmetricEncrypt] sealed under the same key and throws on a
    string without the header of the key. *)
Definition symmetricDecrypt (key data : string) : result string :=
  match data with
  | EmptyString => Throw DecryptError
  | String _ sealed =>
    match strip_prefix (key ++ "|") sealed with
    | Some plaintext => Ok plaintext
    | None => Throw DecryptError
    end
  end.

Definition crypto : Crypto :=
  Build_Crypto (list nat) symmetricEncrypt symmetricDecrypt generateRandomString.

End Reference.


(* ------------------------------------------------------------------ *)
(** ** What is assumed of the collaborators *)

(** A caller-supplied pair is symmetric when [decrypt] undoes
    [encrypt]. *)
Definition symmetric_pair (encrypt decrypt : string -> result string) : Prop :=
  forall token : string,
    exists sealed : string, encrypt token = Ok sealed /\ decrypt sealed = Ok token.

Definition symmetric_strategy (s : option StoreStrategy) : Prop :=
  match s with
  | Some (custom encrypt decrypt) => symmetric_pair encrypt decrypt
  | _ => True
  end.

(** [symmetricDecrypt] undoes [symmetricEncrypt] under the same key,
    whatever the nonce. *)
Definition decrypt_inverts_encrypt `{Crypto} : Prop :=
  forall (key data : string) (e : entropy),
    symmetricDecrypt key (fst (symmetricEncrypt key data e)) = Ok data.

(** The remainder of a batch: [codes.filter((code) => code !== presented)]. *)
Definition remainder (codes : list string) (presented : string) : list string :=
  filter (fun code => negb (String.eqb code presented)) codes.

(** The fetch and decode steps of the verification endpoint: undo the
    storage layer, then the value layer. *)
Definition fetch_decode `{Crypto} (options : BackupCodeOptions.t)
           (ctx : Context.t) (blob : string) : result (option (list string)) :=
  decrypted <- decryptBackupCodes options ctx blob ;;
  getBackupCodes decrypted (Context.secret ctx).

(* ------------------------------------------------------------------ *)
(** ** A concrete deployment *)

Module Scenario.

#[local] Existing Instance Reference.crypto.

(** A 32-byte application secret. *)
Definition secret : string := "0123456789abcdef0123456789abcdef".

Definition alice : User := {| id := "alice"; twoFactorEnabled := true |}.

Definition ctx : Context.t :=
  Context.make secret (Ok alice) alice (fun _ _ => Ok tt).

Definition batch : list string :=
  [ "k3Qp9-Zt41a"; "Xw07b-Lm2Rd"; "h8Vc5-Nq6Ys"; "P1eD4-uG9oK"; "r2Tz8-Ja3Wf";
    "M6iB0-xS7cH"; "y5Ln1-Eq8Ug"; "C9vA2-kF4pT"; "d7Ho3-Rw5Zj"; "U0sX6-bI1mN" ].

(** A symmetric caller-supplied pair: a one-character envelope. *)
Definition wrap (token : string) : result string := Ok (String "#" token).

Definition unwrap (token : string) : result string :=
  match token with
  | String c rest => if Ascii.eqb c "#" then Ok rest else Throw CustomError
  | EmptyString => Throw CustomError
  end.

(** The options of a deployment that hands out [batch] and stores it
    with the given strategy. *)
Definition options (s : StoreStrategy) : BackupCodeOptions.t :=
  BackupCodeOptions.make None None (Some (fun _ => batch)) (Some s).

Definition body (code : string) : VerifyBody :=
  {| body_code := code; disableSession := None; trustDevice := None |}.

(** The user has enabled the factor; no codes were handed out yet. *)
Definition initial : World :=
  {| rows := [TwoFactorTable.make "bob" "totp-bob" EmptyString;
              TwoFactorTable.make "alice" "totp-alice" EmptyString];
     random := [7; 11; 13] |}.

(** The state after the user has regenerated the codes. *)
Definition enrolled (s : StoreStrategy) : World :=
  snd (generateBackupCodes_endpoint (options s) ctx "password" initial).

(** The state after the user has then redeemed the third code. *)
Definition redeemed (s : StoreStrategy) : World :=
  snd (verifyBackupCode_endpoint (options s) ctx (body "h8Vc5-Nq6Ys") (enrolled s)).

(** A record whose blob decrypts to the JSON text [[1]], an array that
    holds a number. *)
Definition malformed : World :=
  {| rows := [TwoFactorTable.make "alice" "totp-alice"
                (fst (Reference.symmetricEncrypt secret "[1]" []))];
     random := [] |}.

(** Two runs of ten equal draws. *)
Definition repeated_draws : list nat :=
  [3; 1; 4; 1; 5; 9; 2; 6; 5; 3; 3; 1; 4; 1; 5; 9; 2; 6; 5; 3].

(** The draws that spell [ab12cd], [EF34gh] and [99zzYY]. *)
Definition spelled_draws : list nat :=
  [0; 1; 27; 28; 2; 3; 40; 41; 29; 30; 6; 7; 35; 35; 25; 25; 60; 60].

End Scenario.


(* ------------------------------------------------------------------ *)
(** ** Runs of the verification endpoint *)

(** A verification request that presents [code] and sets no flag. *)
Definition request (code : string) : VerifyBody :=
  {| body_code := code; disableSession := None; trustDevice := None |}.

(** The batch that the record of [uid] decodes into on the fetch-decode
    path, if there is a record and it decodes. *)
Definition stored_batch `{Crypto} (options : BackupCodeOptions.t)
           (ctx : Context.t) (uid : string) (w : World) : option (list string) :=
  match Adapter.findOne (rows w) uid with
  | Some twoFactor =>
    match fetch_decode options ctx (TwoFactorTable.backupCodes twoFactor) with
    | Ok (Some codes) => Some codes
    | _ => None
    end
  | None => None
  end.

(** A sequential run: the verification endpoint called once per
    presented code, each call from its read of the record to its write
    completed before the next one starts, on the state the previous
    call left; the codes that were accepted, in the order of their
    requests, and the final state.  Requests that overlap are not runs
    of this kind; [overlapped] below is one. *)
Fixpoint redeem_all `{Crypto} (options : BackupCodeOptions.t)
         (ctx : Context.t) (presented : list string) (w : World)
  : list string * World :=
  match presented with
  | [] => ([], w)
  | code :: rest =>
    match verifyBackupCode_endpoint options ctx (request code) w with
    | (Ok _, w') =>
      let (accepted, w'') := redeem_all options ctx rest w' in
      (code :: accepted, w'')
    | (Throw _, w') => redeem_all options ctx rest w'
    end
  end.

(** The verification handler has no lock and no version check: between
    its awaited read of the record ([adapter.findOne]) and its awaited
    write ([adapter.updateMany]) another request can run.  The handler
    in two steps, with the boundary before the write: what the first
    step hands to the second. *)
Record PendingWrite : Type := {
  pending_user : User;
  pending_backupCodes : string;
  pending_disableSession : option bool
}.

(** The handler from [verifyTwoFactor] to the encryption of the
    remainder: it reads the state and writes no row. *)
Definition verify_read `{Crypto} (options : BackupCodeOptions.t)
           (ctx : Context.t) (body : VerifyBody) : Handler PendingWrite :=
  user <~ lift (Context.verifyTwoFactor ctx) ;;
  twoFactor <~ findOne (id user) ;;
  match twoFactor with
  | None => throw (APIError BAD_REQUEST BACKUP_CODES_NOT_ENABLED)
  | Some twoFactor =>
    decryptedBackupCodes <~
      lift (decryptBackupCodes options ctx (TwoFactorTable.backupCodes twoFactor)) ;;
    validate <~
      lift (verifyBackupCode
              (VerifyData.make decryptedBackupCodes (body_code body))
              (Context.secret ctx)) ;;
    if negb (Validation.status validate)
    then throw (APIError UNAUTHORIZED INVALID_BACKUP_CODE)
    else
      updatedBackupCodes <~
        withRandom (symmetricEncrypt (Context.secret ctx)
                      (JSON.stringify_nullable (Validation.updated validate))) ;;
      ret {| pending_user := user;
             pending_backupCodes := updatedBackupCodes;
             pending_disableSession := disableSession body |}
  end.

(** The rest of the handler: [adapter.updateMany], then the answer. *)
Definition verify_write `{Crypto} (p : PendingWrite) : Handler VerifyResponse :=
  _ <~ updateMany (id (pending_user p)) (pending_backupCodes p) ;;
  match pending_disableSession p with
  | Some true => ret (SessionJson (pending_user p))
  | Some false | None => ret (Valid (pending_user p))
  end.

(** Two overlapping requests: both read before either writes, then the
    first writes, then the second.  The outcomes of the two requests
    and the final state. *)
Definition overlapped `{Crypto} (options : BackupCodeOptions.t)
           (ctx : Context.t) (first second : VerifyBody) (w : World)
  : (result VerifyResponse * result VerifyResponse) * World :=
  match verify_read options ctx first w with
  | (Throw e, w1) =>
    let (r2, w2) := verifyBackupCode_endpoint options ctx second w1 in
    ((Throw e, r2), w2)
  | (Ok p1, w1) =>
    match verify_read options ctx second w1 with
    | (Throw e, w2) =>
      let (r1, w3) := verify_write p1 w2 in
      ((r1, Throw e), w3)
    | (Ok p2, w2) =>
      let (r1, w3) := verify_write p1 w2 in
      let (r2, w4) := verify_write p2 w3 in
      ((r1, r2), w4)
    end
  end.

(** The codes of a batch that none of the presented codes equals. *)
Definition unredeemed (codes presented : list string) : list string :=
  filter (fun code => negb (JS.includes presented code)) codes.

(** A row may differ from its earlier self in the blob only, and only
    when it belongs to [uid]. *)
Definition same_row_but_blob_of (uid : string) (r r' : TwoFactorTable.t) : Prop :=
  TwoFactorTable.userId r' = TwoFactorTable.userId r
  /\ TwoFactorTable.secret r' = TwoFactorTable.secret r
  /\ (TwoFactorTable.userId r <> uid -> r' = r).

Module Cases.

#[local] Existing Instance Reference.crypto.

(** A user whose batch is used up: the record holds the empty list. *)
Definition exhausted : World :=
  {| rows := [TwoFactorTable.make "alice" "totp-alice"
                (fst (Reference.symmetricEncrypt Scenario.secret
                        (JSON.stringify []) []))];
     random := [2] |}.

(** Only another user has a record. *)
Definition stranger : World :=
  {| rows := [TwoFactorTable.make "bob" "totp-bob" EmptyString];
     random := [4; 8] |}.

(** The signed-in user has not enabled the factor. *)
Definition ctx_disabled : Context.t :=
  Context.make Scenario.secret (Ok Scenario.alice)
    {| id := "alice"; twoFactorEnabled := false |}
    (fun _ _ => Throw PasswordError).

(** The password check rejects. *)
Definition ctx_wrong_password : Context.t :=
  Context.make Scenario.secret (Ok Scenario.alice) Scenario.alice
    (fun _ _ => Throw PasswordError).

(** A caller-supplied [encrypt] that throws. *)
Definition broken (token : string) : result string := Throw CustomError.

(** The value-layer ciphertext of the batch of the deployment. *)
Definition sealed_batch : string :=
  fst (Reference.symmetricEncrypt Scenario.secret
         (JSON.stringify Scenario.batch) []).

(** Requests that repeat a code and present one that was never
    issued. *)
Definition presented : list string :=
  ["h8Vc5-Nq6Ys"; "old00-code1"; "h8Vc5-Nq6Ys"; "k3Qp9-Zt41a"; "h8Vc5-Nq6Ys"].

End Cases.

(* ------------------------------------------------------------------ *)
(** ** Strings *)

Lemma append_assoc (a b c : string) : (a ++ b) ++ c = a ++ (b ++ c).
Proof.
  induction a as [|x a IH]; simpl; [reflexivity|].
  now rewrite IH.
Qed.

Lemma append_empty_r (a : string) : a ++ EmptyString = a.
Proof.
  induction a as [|x a IH]; simpl; [reflexivity|].
  now rewrite IH.
Qed.

Lemma length_append (a b : string) :
  String.length (a ++ b) = String.length a + String.length b.
Proof.
  induction a as [|x a IH]; simpl; [reflexivity|].
  now rewrite IH.
Qed.

(* ------------------------------------------------------------------ *)
(** ** [JSON.parse] reads back what [JSON.stringify] wrote *)

Module JSONFacts.
Import JSON.

Lemma parse_chars_escape (c : ascii) (tail : string) :
  parse_chars (escape c ++ tail) = cons_char c (parse_chars tail).
Proof.
  destruct c as [[] [] [] [] [] [] [] []]; reflexivity.
Qed.

Lemma parse_chars_escape_all (s rest : string) :
  parse_chars (escape_all s ++ String dquote rest) = Some (s, rest).
Proof.
  induction s as [|c s IH]; simpl.
  - reflexivity.
  - rewrite append_assoc, parse_chars_escape, IH. reflexivity.
Qed.

Lemma parse_value_quote (fuel : nat) (s rest : string) :
  0 < fuel -> parse_value fuel (quote s ++ rest) = Some (JStr s, rest).
Proof.
  intros Hf. destruct fuel as [|fuel]; [lia|].
  unfold quote. cbn [append parse_value skip_ws].
  change (is_ws dquote) with false. cbv iota.
  change (Ascii.eqb dquote "n") with false.
  change (Ascii.eqb dquote "t") with false.
  change (Ascii.eqb dquote "f") with false.
  change (Ascii.eqb dquote dquote) with true. cbv iota.
  rewrite append_assoc. cbn [append].
  now rewrite parse_chars_escape_all.
Qed.

Lemma skip_ws_sep (c : ascii) (rest : string) :
  is_ws c = false -> skip_ws (String c rest) = String c rest.
Proof. intros E. simpl. now rewrite E. Qed.

Lemma parse_elements_quoted (x : string) (l : list string) :
  forall (fuel : nat) (rest : string),
    List.length l + 2 <= fuel ->
    parse_elements fuel (String.concat "," (map quote (x :: l)) ++ "]" ++ rest)
    = Some (map JStr (x :: l), rest).
Proof.
  revert x. induction l as [|y l IH]; intros x fuel rest Hf.
  - destruct fuel as [|fuel]; [simpl in Hf; lia|].
    cbn [map String.concat parse_elements].
    rewrite parse_value_quote by (simpl in Hf; lia). reflexivity.
  - destruct fuel as [|fuel]; [simpl in Hf; lia|].
    change (String.concat "," (map quote (x :: y :: l)))
      with (quote x ++ "," ++ String.concat "," (map quote (y :: l))).
    rewrite !append_assoc.
    cbn [parse_elements]. rewrite parse_value_quote by (simpl in Hf; lia).
    change ("," ++ String.concat "," (map quote (y :: l)) ++ "]" ++ rest)
      with (String "," (String.concat "," (map quote (y :: l)) ++ "]" ++ rest)).
    rewrite skip_ws_sep by reflexivity.
    change (Ascii.eqb "," ",") with true. cbv iota.
    rewrite IH by (simpl in Hf |- *; lia).
    reflexivity.
Qed.

Lemma length_concat_quoted (l : list string) :
  List.length l <= String.length (String.concat "," (map quote l)).
Proof.
  induction l as [|x [|y l] IH].
  - simpl. lia.
  - simpl. lia.
  - change (String.concat "," (map quote (x :: y :: l)))
      with (quote x ++ "," ++ String.concat "," (map quote (y :: l))).
    rewrite !length_append. simpl in IH |- *. lia.
Qed.

(** [JSON.parse(JSON.stringify(codes))] is the array of the codes. *)
Lemma parse_stringify (codes : list string) :
  parse (stringify codes) = Ok (JArr (map JStr codes)).
Proof.
  unfold parse, stringify.
  assert (Hlen : List.length codes + 2
                 <= 2 * String.length ("[" ++ String.concat "," (map quote codes) ++ "]") + 1).
  { pose proof (length_concat_quoted codes) as Hl.
    cbn [append String.length]. rewrite length_append. simpl. lia. }
  replace (2 * String.length ("[" ++ String.concat "," (map quote codes) ++ "]") + 2)
    with (S (2 * String.length ("[" ++ String.concat "," (map quote codes) ++ "]") + 1))
    by lia.
  remember (2 * String.length ("[" ++ String.concat "," (map quote codes) ++ "]") + 1)
    as fuel eqn:Efuel. clear Efuel.
  destruct codes as [|x l].
  - reflexivity.
  - cbn [append parse_value skip_ws].
    change (is_ws "[") with false. cbv iota.
    change (Ascii.eqb "[" "n") with false.
    change (Ascii.eqb "[" "t") with false.
    change (Ascii.eqb "[" "f") with false.
    change (Ascii.eqb "[" dquote) with false.
    change (Ascii.eqb "[" "[") with true. cbv iota.
    assert (Hq : exists body,
               String.concat "," (map quote (x :: l)) ++ "]"
               = String dquote body).
    { destruct l; cbn [map String.concat]; unfold quote at 1;
        cbn [append]; eauto. }
    destruct Hq as [body Hq].
    assert (P := parse_elements_quoted x l fuel EmptyString).
    specialize (P ltac:(simpl in Hlen; lia)).
    change ("]" ++ EmptyString) with "]" in P.
    rewrite Hq in P |- *.
    rewrite skip_ws_sep by reflexivity.
    change (Ascii.eqb dquote "]") with false. cbv iota.
    rewrite P. reflexivity.
Qed.

End JSONFacts.

(* ------------------------------------------------------------------ *)
(** ** The fuel of [JSON.parse] is enough *)

Module JSONFuel.
Import JSON.

Lemma skip_ws_length (s : string) : String.length (skip_ws s) <= String.length s.
Proof.
  induction s as [|c s IH]; simpl; [lia|].
  destruct (is_ws c); simpl; lia.
Qed.

Lemma skip_ws_cons (s r : string) (c : ascii) :
  skip_ws s = String c r -> String.length r < String.length s.
Proof.
  intros E. pose proof (skip_ws_length s) as L. rewrite E in L. simpl in L. lia.
Qed.

Lemma cons_char_length (c : ascii) (p : option (string * string)) (x r : string) :
  cons_char c p = Some (x, r) -> exists y, p = Some (y, r).
Proof.
  destruct p as [[y r']|]; simpl; [|discriminate].
  intros E. injection E as _ <-. eauto.
Qed.

Lemma parse_chars_length (s x r : string) :
  parse_chars s = Some (x, r) -> String.length r < String.length s.
Proof.
  revert x r.
  assert (G : forall n s, String.length s <= n -> forall x r,
               parse_chars s = Some (x, r) -> String.length r < String.length s).
  { intros n. induction n as [|n IH]; intros s0 Hn x r E.
    - destruct s0; [discriminate|simpl in Hn; lia].
    - destruct s0 as [|c t]; [discriminate|]. simpl in Hn.
      cbn [parse_chars] in E.
      destruct (Ascii.eqb c dquote).
      { injection E as _ <-. simpl. lia. }
      destruct (Ascii.eqb c backslash).
      { destruct t as [|e t']; [discriminate|].
        destruct (Ascii.eqb e "u").
        - destruct t' as [|h1 [|h2 [|h3 [|h4 t'']]]]; try discriminate.
          destruct (hex4 h1 h2 h3 h4) as [k|]; [|discriminate].
          destruct (k <? 256)%nat; [|discriminate].
          apply cons_char_length in E. destruct E as [y E].
          apply IH in E; simpl in *; lia.
        - destruct (unescape e) as [c'|]; [|discriminate].
          apply cons_char_length in E. destruct E as [y E].
          apply IH in E; simpl in *; lia. }
      destruct (nat_of_ascii c <? 32)%nat; [discriminate|].
      apply cons_char_length in E. destruct E as [y E].
      apply IH in E; simpl in *; lia. }
  intros x r. apply (G (String.length s)). lia.
Qed.

Lemma span_digits_length (s : string) :
  String.length (snd (span_digits s)) <= String.length s.
Proof.
  induction s as [|c s IH]; simpl; [lia|].
  destruct (is_digit c); simpl; [|lia].
  destruct (span_digits s); simpl in *. lia.
Qed.

Lemma parse_number_length (s x r : string) :
  parse_number s = Some (x, r) -> String.length r < String.length s.
Proof.
  unfold parse_number.
  set (p := match s with
            | String c r0 => if Ascii.eqb c "-" then ("-", r0) else (EmptyString, s)
            | EmptyString => (EmptyString, s)
            end).
  assert (Hp : String.length (snd p) <= String.length s).
  { unfold p. destruct s as [|c r0]; simpl; [lia|].
    destruct (Ascii.eqb c "-"); simpl; lia. }
  destruct p as [sign s1]. simpl in Hp.
  destruct (parse_int s1) as [[i s2]|] eqn:Ei; [|discriminate].
  assert (H2 : String.length s2 < String.length s1).
  { unfold parse_int in Ei. destruct s1 as [|c t]; [discriminate|].
    destruct (Ascii.eqb c "0").
    - injection Ei as _ <-. simpl. lia.
    - destruct (is_digit c); [|discriminate].
      pose proof (span_digits_length t) as L.
      destruct (span_digits t) as [d rest]. injection Ei as _ <-. simpl in *. lia. }
  destruct (parse_frac s2) as [[f s3]|] eqn:Ef; [|discriminate].
  assert (H3 : String.length s3 <= String.length s2).
  { unfold parse_frac in Ef. destruct s2 as [|c t].
    - injection Ef as _ <-. lia.
    - destruct (Ascii.eqb c ".").
      + pose proof (span_digits_length t) as L.
        destruct (span_digits t) as [[|d0 d] rest]; [discriminate|].
        injection Ef as _ <-. simpl in *. lia.
      + injection Ef as _ <-. lia. }
  destruct (parse_exp s3) as [[e s4]|] eqn:Ee; [|discriminate].
  assert (H4 : String.length s4 <= String.length s3).
  { unfold parse_exp in Ee. destruct s3 as [|c t].
    - injection Ee as _ <-. lia.
    - destruct (Ascii.eqb c "e" || Ascii.eqb c "E").
      + set (q := match t with
                  | String g r' =>
                    if Ascii.eqb g "+" || Ascii.eqb g "-"
                    then (String g EmptyString, r') else (EmptyString, t)
                  | EmptyString => (EmptyString, t)
                  end) in Ee.
        assert (Hq : String.length (snd q) <= String.length t).
        { unfold q. destruct t as [|g r']; simpl; [lia|].
          destruct (Ascii.eqb g "+" || Ascii.eqb g "-"); simpl; lia. }
        destruct q as [sg r1]. simpl in Hq.
        pose proof (span_digits_length r1) as L.
        destruct (span_digits r1) as [[|d0 d] rest]; [discriminate|].
        injection Ee as _ <-. simpl in *. lia.
      + injection Ee as _ <-. lia. }
  intros E. injection E as _ <-. lia.
Qed.

Lemma expect_length (lit s r : string) :
  expect lit s = Some r -> String.length r <= String.length s.
Proof.
  revert s. induction lit as [|a lit IH]; intros s E; simpl in E.
  - injection E as <-. lia.
  - destruct s as [|b s]; [discriminate|].
    destruct (Ascii.eqb a b); [|discriminate].
    apply IH in E. simpl. lia.
Qed.


(** Every successful parse consumes at least one character. *)
Lemma parse_consumes (fuel : nat) :
  (forall s v r, parse_value fuel s = Some (v, r) ->
                 String.length r < String.length s)
  /\ (forall s l r, parse_elements fuel s = Some (l, r) ->
                    String.length r < String.length s)
  /\ (forall s l r, parse_members fuel s = Some (l, r) ->
                    String.length r < String.length s).
Proof.
  induction fuel as [|f (IHv & IHe & IHm)].
  - repeat split; intros; discriminate.
  - repeat split.
    + intros s v r E. cbn [parse_value] in E.
      destruct (skip_ws s) as [|c t] eqn:Es; [discriminate|].
      apply skip_ws_cons in Es.
      destruct (Ascii.eqb c "n").
      { destruct (expect "ull" t) eqn:Ex; [|discriminate].
        apply expect_length in Ex. injection E as _ <-. lia. }
      destruct (Ascii.eqb c "t").
      { destruct (expect "rue" t) eqn:Ex; [|discriminate].
        apply expect_length in Ex. injection E as _ <-. lia. }
      destruct (Ascii.eqb c "f").
      { destruct (expect "alse" t) eqn:Ex; [|discriminate].
        apply expect_length in Ex. injection E as _ <-. lia. }
      destruct (Ascii.eqb c dquote).
      { destruct (parse_chars t) as [[x r']|] eqn:Ex; [|discriminate].
        apply parse_chars_length in Ex. injection E as _ <-. lia. }
      destruct (Ascii.eqb c "[").
      { destruct (skip_ws t) as [|d t'] eqn:Et; [discriminate|].
        pose proof (skip_ws_length t) as Lt. rewrite Et in Lt. simpl in Lt.
        destruct (Ascii.eqb d "]").
        - injection E as _ <-. lia.
        - destruct (parse_elements f (String d t')) as [[l r']|] eqn:Ex;
            [|discriminate].
          apply IHe in Ex. injection E as _ <-. simpl in Ex. lia. }
      destruct (Ascii.eqb c "{").
      { destruct (skip_ws t) as [|d t'] eqn:Et; [discriminate|].
        pose proof (skip_ws_length t) as Lt. rewrite Et in Lt. simpl in Lt.
        destruct (Ascii.eqb d "}").
        - injection E as _ <-. lia.
        - destruct (parse_members f (String d t')) as [[l r']|] eqn:Ex;
            [|discriminate].
          apply IHm in Ex. injection E as _ <-. simpl in Ex. lia. }
      destruct (parse_number (String c t)) as [[x r']|] eqn:Ex; [|discriminate].
      apply parse_number_length in Ex. injection E as _ <-. simpl in Ex. lia.
    + intros s l r E. cbn [parse_elements] in E.
      destruct (parse_value f s) as [[v r0]|] eqn:Ev; [|discriminate].
      apply IHv in Ev.
      destruct (skip_ws r0) as [|c t] eqn:Es; [discriminate|].
      apply skip_ws_cons in Es.
      destruct (Ascii.eqb c ",").
      * destruct (parse_elements f t) as [[l' r']|] eqn:Ex; [|discriminate].
        apply IHe in Ex. injection E as _ <-. lia.
      * destruct (Ascii.eqb c "]"); [|discriminate].
        injection E as _ <-. lia.
    + intros s l r E. cbn [parse_members] in E.
      destruct (skip_ws s) as [|q r0] eqn:Es; [discriminate|].
      apply skip_ws_cons in Es.
      destruct (Ascii.eqb q dquote); [|discriminate].
      destruct (parse_chars r0) as [[k r1]|] eqn:Ek; [|discriminate].
      apply parse_chars_length in Ek.
      destruct (skip_ws r1) as [|c r2] eqn:E1; [discriminate|].
      apply skip_ws_cons in E1.
      destruct (Ascii.eqb c ":"); [|discriminate].
      destruct (parse_value f r2) as [[v r3]|] eqn:Ev; [|discriminate].
      apply IHv in Ev.
      destruct (skip_ws r3) as [|d r4] eqn:E3; [discriminate|].
      apply skip_ws_cons in E3.
      destruct (Ascii.eqb d ",").
      * destruct (parse_members f r4) as [[l' r']|] eqn:Ex; [|discriminate].
        apply IHm in Ex. injection E as _ <-. lia.
      * destruct (Ascii.eqb d "}"); [|discriminate].
        injection E as _ <-. lia.
Qed.

(** Twice the length of the input, and a little, is fuel enough: more
    fuel changes no result. *)
Lemma parse_fuel_stable (n : nat) :
  forall s, String.length s < n ->
    (forall f g, 2 * String.length s + 1 <= f -> 2 * String.length s + 1 <= g ->
                 parse_value f s = parse_value g s)
    /\ (forall f g, 2 * String.length s + 2 <= f -> 2 * String.length s + 2 <= g ->
                    parse_elements f s = parse_elements g s)
    /\ (forall f g, 2 * String.length s + 2 <= f -> 2 * String.length s + 2 <= g ->
                    parse_members f s = parse_members g s).
Proof.
  induction n as [|n IH]; intros s Hn; [lia|].
  - assert (SV : forall f g, 2 * String.length s + 1 <= f ->
                             2 * String.length s + 1 <= g ->
                             parse_value f s = parse_value g s).
    { intros [|f] [|g] Hf Hg; try lia. cbn [parse_value].
      destruct (skip_ws s) as [|c t] eqn:Es; [reflexivity|].
      apply skip_ws_cons in Es.
      destruct (Ascii.eqb c "n"); [reflexivity|].
      destruct (Ascii.eqb c "t"); [reflexivity|].
      destruct (Ascii.eqb c "f"); [reflexivity|].
      destruct (Ascii.eqb c dquote); [reflexivity|].
      destruct (Ascii.eqb c "[").
      { destruct (skip_ws t) as [|d t'] eqn:Et; [reflexivity|].
        pose proof (skip_ws_length t) as Lt. rewrite Et in Lt.
        destruct (Ascii.eqb d "]"); [reflexivity|].
        destruct (IH (String d t') ltac:(lia)) as (_ & E & _).
        rewrite (E f g) by lia. reflexivity. }
      destruct (Ascii.eqb c "{"); [|reflexivity].
      destruct (skip_ws t) as [|d t'] eqn:Et; [reflexivity|].
      pose proof (skip_ws_length t) as Lt. rewrite Et in Lt.
      destruct (Ascii.eqb d "}"); [reflexivity|].
      destruct (IH (String d t') ltac:(lia)) as (_ & _ & E).
      rewrite (E f g) by lia. reflexivity. }
    split; [exact SV|]. split.
    + intros [|f] [|g] Hf Hg; try lia. cbn [parse_elements].
      rewrite (SV f g) by lia.
      destruct (parse_value g s) as [[v r0]|] eqn:Ev; [|reflexivity].
      apply (proj1 (parse_consumes g)) in Ev.
      destruct (skip_ws r0) as [|c t] eqn:Es; [reflexivity|].
      apply skip_ws_cons in Es.
      destruct (Ascii.eqb c ","); [|reflexivity].
      destruct (IH t ltac:(lia)) as (_ & E & _).
      rewrite (E f g) by lia. reflexivity.
    + intros [|f] [|g] Hf Hg; try lia. cbn [parse_members].
      destruct (skip_ws s) as [|q r0] eqn:Es; [reflexivity|].
      apply skip_ws_cons in Es.
      destruct (Ascii.eqb q dquote); [|reflexivity].
      destruct (parse_chars r0) as [[k r1]|] eqn:Ek; [|reflexivity].
      apply parse_chars_length in Ek.
      destruct (skip_ws r1) as [|c r2] eqn:E1; [reflexivity|].
      apply skip_ws_cons in E1.
      destruct (Ascii.eqb c ":"); [|reflexivity].
      destruct (IH r2 ltac:(lia)) as (E & _ & _).
      rewrite (E f g) by lia.
      destruct (parse_value g r2) as [[v r3]|] eqn:Ev; [|reflexivity].
      apply (proj1 (parse_consumes g)) in Ev.
      destruct (skip_ws r3) as [|d r4] eqn:E3; [reflexivity|].
      apply skip_ws_cons in E3.
      destruct (Ascii.eqb d ","); [|reflexivity].
      destruct (IH r4 ltac:(lia)) as (_ & _ & E').
      rewrite (E' f g) by lia. reflexivity.
Qed.

(** [parse] never fails for want of fuel: with any larger amount the
    parser returns what it returns with the amount [parse] gives it. *)
Lemma parse_fuel_adequate (s : string) (fuel : nat) :
  2 * String.length s + 2 <= fuel ->
  parse_value fuel s = parse_value (2 * String.length s + 2) s.
Proof.
  intros Hf.
  destruct (parse_fuel_stable (S (String.length s)) s (le_n _)) as (E & _ & _).
  apply E; lia.
Qed.

End JSONFuel.

(* ------------------------------------------------------------------ *)
(** ** The credential store *)

Module AdapterFacts.
Import Adapter.

Lemma findOne_update (rows : table) (uid blob : string) :
  findOne (update rows uid blob) uid
  = option_map (set_backupCodes blob) (findOne rows uid).
Proof.
  unfold findOne. induction rows as [|r rows IH]; simpl; [reflexivity|].
  destruct (matches uid r) eqn:E; simpl.
  - unfold matches in *. simpl. now rewrite E.
  - now rewrite E.
Qed.

Lemma findOne_updateMany (rows : table) (uid blob : string) :
  findOne (updateMany rows uid blob) uid
  = option_map (set_backupCodes blob) (findOne rows uid).
Proof.
  unfold findOne, updateMany. induction rows as [|r rows IH]; simpl; [reflexivity|].
  destruct (matches uid r) eqn:E; simpl.
  - unfold matches in *. simpl. now rewrite E.
  - now rewrite E.
Qed.

Lemma findOne_userId (rows : table) (uid : string) (r : TwoFactorTable.t) :
  findOne rows uid = Some r -> TwoFactorTable.userId r = uid.
Proof.
  unfold findOne. intros E. apply find_some in E. destruct E as [_ E].
  now apply String.eqb_eq.
Qed.

End AdapterFacts.

Section Lemmas.
Context `{Crypto}.
Hypothesis roundtrip : decrypt_inverts_encrypt.

Lemma strings_of_map_JStr (codes : list string) :
  strings_of (map JSON.JStr codes) = Some codes.
Proof.
  induction codes as [|c codes IH]; simpl; [reflexivity|].
  now rewrite IH.
Qed.

Lemma getBackupCodes_sealed (key : string) (codes : list string) (e : entropy) :
  getBackupCodes (fst (symmetricEncrypt key (JSON.stringify codes) e)) key
  = Ok (Some codes).
Proof.
  unfold getBackupCodes. rewrite roundtrip. simpl.
  unfold JS.utf8_reencode. rewrite JSONFacts.parse_stringify. simpl.
  now rewrite strings_of_map_JStr.
Qed.

Lemma storeBackupCodes_decrypt (options : BackupCodeOptions.t)
      (ctx : Context.t) (blob : string) (w : World) :
  symmetric_strategy (BackupCodeOptions.storeBackupCodes options) ->
  exists (stored : string) (w' : World),
    storeBackupCodes options ctx blob w = (Ok stored, w')
    /\ rows w' = rows w
    /\ decryptBackupCodes options ctx stored = Ok blob.
Proof.
  unfold storeBackupCodes, decryptBackupCodes, symmetric_strategy.
  destruct (BackupCodeOptions.storeBackupCodes options) as [[| |enc dec]|];
    intros Hsym.
  - exists blob, w. auto.
  - unfold withRandom.
    pose proof (roundtrip (Context.secret ctx) blob (random w)) as R.
    destruct (symmetricEncrypt (Context.secret ctx) blob (random w))
      as [sealed e'] eqn:E.
    eexists _, _. split; [reflexivity|]. simpl. auto.
  - destruct (Hsym blob) as (sealed & He & Hd).
    exists sealed, w. unfold lift. rewrite He. auto.
  - exists blob, w. auto.
Qed.

Lemma includes_In (l : list string) (x : string) :
  JS.includes l x = true <-> In x l.
Proof.
  induction l as [|y l IH]; simpl.
  - split; [discriminate|tauto].
  - destruct (String.eqb_spec y x) as [->|N].
    + tauto.
    + rewrite IH. split; [tauto|]. intros [E|I]; [congruence|assumption].
Qed.

Lemma verifyBackupCode_decoded (blob code key : string) (codes : list string) :
  getBackupCodes blob key = Ok (Some codes) ->
  verifyBackupCode (VerifyData.make blob code) key
  = Ok (Validation.make (JS.includes codes code) (Some (remainder codes code))).
Proof.
  intros E. unfold verifyBackupCode. simpl. rewrite E. reflexivity.
Qed.

End Lemmas.

Lemma length_remainder (codes : list string) (code : string) :
  List.length (remainder codes code) + count_occ string_dec codes code
  = List.length codes.
Proof.
  unfold remainder. induction codes as [|c codes IH]; simpl; [reflexivity|].
  destruct (String.eqb_spec c code) as [->|N]; simpl.
  - destruct (string_dec code code); [lia|congruence].
  - destruct (string_dec c code); [congruence|]. simpl. lia.
Qed.

Lemma remainder_excludes (codes : list string) (code : string) :
  ~ In code (remainder codes code).
Proof.
  unfold remainder. intros I. apply filter_In in I. destruct I as [_ I].
  now rewrite String.eqb_refl in I.
Qed.

Section Properties.
Context `{Crypto}.
Hypothesis roundtrip : decrypt_inverts_encrypt.

(** The verification endpoint once the record is fetched and its blob
    decoded into [codes]: a match persists the re-encrypted remainder,
    no match throws and leaves the state as it was. *)
Lemma verify_endpoint_decoded (options : BackupCodeOptions.t)
      (ctx : Context.t) (body : VerifyBody) (w : World)
      (user : User) (twoFactor : TwoFactorTable.t) (codes : list string) :
  Context.verifyTwoFactor ctx = Ok user ->
  Adapter.findOne (rows w) (id user) = Some twoFactor ->
  fetch_decode options ctx (TwoFactorTable.backupCodes twoFactor)
    = Ok (Some codes) ->
  verifyBackupCode_endpoint options ctx body w
  = if JS.includes codes (body_code body)
    then
      (Ok match disableSession body with
          | Some true => SessionJson user
          | _ => Valid user
          end,
       {| rows :=
            Adapter.updateMany (rows w) (id user)
              (fst (symmetricEncrypt (Context.secret ctx)
                      (JSON.stringify (remainder codes (body_code body)))
                      (random w)));
          random :=
            snd (symmetricEncrypt (Context.secret ctx)
                   (JSON.stringify (remainder codes (body_code body)))
                   (random w)) |})
    else (Throw (APIError UNAUTHORIZED INVALID_BACKUP_CODE), w).
Proof.
  intros Hu Hf Hd.
  unfold verifyBackupCode_endpoint, andThen, lift, findOne, fetch_decode in *.
  rewrite Hu, Hf.
  destruct (decryptBackupCodes options ctx (TwoFactorTable.backupCodes twoFactor))
    as [decrypted|e]; simpl in Hd; [|discriminate].
  rewrite (verifyBackupCode_decoded _ _ _ _ Hd). simpl.
  destruct (JS.includes codes (body_code body)); simpl; [|reflexivity].
  unfold withRandom, updateMany, ret.
  destruct (symmetricEncrypt (Context.secret ctx)
              (JSON.stringify (remainder codes (body_code body))) (random w))
    as [blob e'].
  simpl. destruct (disableSession body) as [[|]|]; reflexivity.
Qed.

(** C9.  A verification call that ends in a failure, whichever it is
    (no record, a blob that does not decode, a code that matches
    nothing, or an exception of a collaborator), leaves the state,
    and with it the stored blob, as it found it: the write-back is
    reached only after a match. *)
Theorem failed_verification_leaves_record
        (options : BackupCodeOptions.t) (ctx : Context.t)
        (body : VerifyBody) (w w' : World) (e : exn) :
  verifyBackupCode_endpoint options ctx body w = (Throw e, w') ->
  w' = w.
Proof.
  unfold verifyBackupCode_endpoint, andThen, lift, findOne, throw.
  destruct (Context.verifyTwoFactor ctx) as [user|e0]; [|congruence].
  destruct (Adapter.findOne (rows w) (id user)) as [twoFactor|]; [|congruence].
  destruct (decryptBackupCodes options ctx (TwoFactorTable.backupCodes twoFactor))
    as [decrypted|e1]; [|congruence].
  destruct (verifyBackupCode _ _) as [validate|e2]; [|congruence].
  destruct (negb (Validation.status validate)); [congruence|].
  unfold withRandom, updateMany, ret.
  destruct (symmetricEncrypt _ _ _) as [blob e'].
  destruct (disableSession body) as [[|]|]; discriminate.
Qed.

(** C10.  For a blob that decodes into [codes], [verifyBackupCode]
    reports whether the presented code occurs in the batch and
    returns the batch without any occurrence of it: the remainder is
    shorter by the number of occurrences, whatever that number, and
    never contains the presented code. *)
Theorem verifyBackupCode_removes_every_occurrence
        (blob code key : string) (codes : list string) :
  getBackupCodes blob key = Ok (Some codes) ->
  exists updated : list string,
    verifyBackupCode (VerifyData.make blob code) key
      = Ok (Validation.make (JS.includes codes code) (Some updated))
    /\ updated = filter (fun c => negb (String.eqb c code)) codes
    /\ List.length updated + count_occ string_dec codes code = List.length codes
    /\ ~ In code updated.
Proof.
  intros E. exists (remainder codes code).
  split; [now apply verifyBackupCode_decoded|].
  split; [reflexivity|]. split.
  - apply length_remainder.
  - unfold remainder. intros I. apply filter_In in I. destruct I as [_ I].
    now rewrite String.eqb_refl in I.
Qed.

Lemma generateBackupCodes_sealed (secret : string)
      (options : BackupCodeOptions.t) (e : entropy) :
  exists e1 : entropy,
    Generated.encryptedBackupCodes (fst (generateBackupCodes secret options e))
    = fst (symmetricEncrypt secret
             (JSON.stringify
                (Generated.backupCodes (fst (generateBackupCodes secret options e))))
             e1).
Proof.
  unfold generateBackupCodes.
  destruct (match BackupCodeOptions.customBackupCodesGenerate options with
            | Some f => (f tt, e)
            | None => generateBackupCodesFn options e
            end) as [codes e1].
  exists e1.
  destruct (symmetricEncrypt secret (JSON.stringify codes) e1) as [enc e2] eqn:E.
  simpl. now rewrite E.
Qed.

Lemma decryptBackupCodes_secret (options : BackupCodeOptions.t)
      (ctx ctx' : Context.t) (blob : string) :
  Context.secret ctx' = Context.secret ctx ->
  decryptBackupCodes options ctx' blob = decryptBackupCodes options ctx blob.
Proof. unfold decryptBackupCodes. now intros ->. Qed.

(** The value layer followed by the storage layer is undone by the
    fetch-decode path, whatever the list of codes. *)
Lemma stored_value_layer_decodes
      (options : BackupCodeOptions.t) (ctx : Context.t)
      (codes : list string) (e : entropy) (w : World) :
  symmetric_strategy (BackupCodeOptions.storeBackupCodes options) ->
  exists (stored : string) (w' : World),
    storeBackupCodes options ctx
      (fst (symmetricEncrypt (Context.secret ctx) (JSON.stringify codes) e)) w
      = (Ok stored, w')
    /\ fetch_decode options ctx stored = Ok (Some codes).
Proof.
  intros Hsym.
  destruct (storeBackupCodes_decrypt roundtrip options ctx
              (fst (symmetricEncrypt (Context.secret ctx) (JSON.stringify codes) e))
              w Hsym) as (stored & w' & Hs & _ & Hd).
  exists stored, w'. split; [assumption|].
  unfold fetch_decode. rewrite Hd. simpl.
  now apply getBackupCodes_sealed.
Qed.

(** C5.  Round trip, for every storage strategy whose custom pair, if
    any, is symmetric, and for every batch (empty or not), be it the
    one a custom generator supplies or the one the default generator
    draws: [generateBackupCodes] returns that batch, and its
    [encryptedBackupCodes], passed through [storeBackupCodes], are a
    blob that the fetch-decode path ([decryptBackupCodes], then
    [getBackupCodes]) turns back into the same codes in the same
    order. *)
Theorem decode_encode_roundtrip
        (options : BackupCodeOptions.t) (ctx : Context.t)
        (e : entropy) (w : World) :
  symmetric_strategy (BackupCodeOptions.storeBackupCodes options) ->
  let g := fst (generateBackupCodes (Context.secret ctx) options e) in
  Generated.backupCodes g
  = match BackupCodeOptions.customBackupCodesGenerate options with
    | Some customBackupCodesGenerate => customBackupCodesGenerate tt
    | None => fst (generateBackupCodesFn options e)
    end
  /\ exists (stored : string) (w' : World),
       storeBackupCodes options ctx (Generated.encryptedBackupCodes g) w
         = (Ok stored, w')
       /\ fetch_decode options ctx stored = Ok (Some (Generated.backupCodes g)).
Proof.
  intros Hsym g. split.
  - unfold g, generateBackupCodes.
    destruct (BackupCodeOptions.customBackupCodesGenerate options) as [f|].
    + now destruct (symmetricEncrypt _ _ e).
    + destruct (generateBackupCodesFn options e) as [codes e1].
      now destruct (symmetricEncrypt _ _ e1).
  - destruct (generateBackupCodes_sealed (Context.secret ctx) options e)
      as [e1 Hg].
    fold g in Hg. rewrite Hg.
    now apply stored_value_layer_decodes.
Qed.

(** What a successful regeneration leaves behind. *)
Lemma generate_endpoint_ok (options : BackupCodeOptions.t)
      (ctx : Context.t) (password : string) (w w1 : World)
      (resp : GenerateResponse) :
  symmetric_strategy (BackupCodeOptions.storeBackupCodes options) ->
  generateBackupCodes_endpoint options ctx password w = (Ok resp, w1) ->
  exists stored : string,
    rows w1 = Adapter.update (rows w) (id (Context.session_user ctx)) stored
    /\ fetch_decode options ctx stored = Ok (Some (generated_backupCodes resp)).
Proof.
  intros Hsym.
  unfold generateBackupCodes_endpoint, andThen, lift, throw.
  destruct (negb (twoFactorEnabled (Context.session_user ctx))); [discriminate|].
  destruct (Context.checkPassword ctx _ password) as [[]|e0]; [|discriminate].
  unfold withRandom at 1.
  pose proof (generateBackupCodes_sealed (Context.secret ctx) options (random w))
    as [e1 Hg].
  destruct (generateBackupCodes (Context.secret ctx) options (random w))
    as [g e2]. simpl in Hg.
  destruct (storeBackupCodes_decrypt roundtrip options ctx
              (Generated.encryptedBackupCodes g)
              {| rows := rows w; random := e2 |} Hsym)
    as (stored & w' & Hs & Hr & Hd).
  rewrite Hs. unfold update, ret. intros E. inversion E; subst; clear E.
  exists stored. simpl in *. rewrite Hr. split; [reflexivity|].
  unfold fetch_decode. rewrite Hd. simpl. rewrite Hg.
  now apply getBackupCodes_sealed.
Qed.

(** C7.  Regeneration discards the prior state.  After a successful
    regeneration for a user who has a record, with response batch
    [B], a verification by that user succeeds exactly for the codes of
    [B]; any other code, in particular a code of an earlier batch
    that is not in [B], fails with [INVALID_BACKUP_CODE]. *)
Theorem regeneration_discards_prior_batch
        (options : BackupCodeOptions.t) (ctx ctx' : Context.t)
        (password : string) (w w1 : World) (resp : GenerateResponse)
        (user : User) (body : VerifyBody) :
  symmetric_strategy (BackupCodeOptions.storeBackupCodes options) ->
  Adapter.findOne (rows w) (id (Context.session_user ctx)) <> None ->
  generateBackupCodes_endpoint options ctx password w = (Ok resp, w1) ->
  Context.secret ctx' = Context.secret ctx ->
  Context.verifyTwoFactor ctx' = Ok user ->
  id user = id (Context.session_user ctx) ->
  (In (body_code body) (generated_backupCodes resp) ->
     exists (r : VerifyResponse) (w2 : World),
       verifyBackupCode_endpoint options ctx' body w1 = (Ok r, w2))
  /\ (~ In (body_code body) (generated_backupCodes resp) ->
        verifyBackupCode_endpoint options ctx' body w1
        = (Throw (APIError UNAUTHORIZED INVALID_BACKUP_CODE), w1)).
Proof.
  intros Hsym Hrec Hgen Hsec Hver Hid.
  destruct (generate_endpoint_ok _ _ _ _ _ _ Hsym Hgen) as (stored & Hrows & Hdec).
  destruct (Adapter.findOne (rows w) (id (Context.session_user ctx)))
    as [r0|] eqn:Hr0; [clear Hrec|congruence].
  assert (Hfind : Adapter.findOne (rows w1) (id user)
                  = Some (Adapter.set_backupCodes stored r0)).
  { rewrite Hid, Hrows, AdapterFacts.findOne_update, Hr0. reflexivity. }
  assert (Hdec' : fetch_decode options ctx'
                    (TwoFactorTable.backupCodes (Adapter.set_backupCodes stored r0))
                  = Ok (Some (generated_backupCodes resp))).
  { simpl. unfold fetch_decode in *.
    rewrite (decryptBackupCodes_secret options ctx ctx' stored Hsec), Hsec.
    exact Hdec. }
  pose proof (verify_endpoint_decoded options ctx' body w1 user _ _
                Hver Hfind Hdec') as V.
  split; intros Hin.
  - apply includes_In in Hin. rewrite Hin in V. eauto.
  - destruct (JS.includes (generated_backupCodes resp) (body_code body)) eqn:Ei.
    + apply includes_In in Ei. contradiction.
    + exact V.
Qed.

(** C3, as the code has it.  When the record exists and its blob
    decrypts and parses, but not into a list of strings,
    [getBackupCodes] returns [null], [verifyBackupCode] reports
    [status: false], and the endpoint throws [INVALID_BACKUP_CODE],
    the signal of a code that matches nothing; the state is
    untouched. *)
Theorem malformed_batch_is_invalid_code
        (options : BackupCodeOptions.t) (ctx : Context.t)
        (body : VerifyBody) (w : World)
        (user : User) (twoFactor : TwoFactorTable.t) :
  Context.verifyTwoFactor ctx = Ok user ->
  Adapter.findOne (rows w) (id user) = Some twoFactor ->
  fetch_decode options ctx (TwoFactorTable.backupCodes twoFactor) = Ok None ->
  verifyBackupCode_endpoint options ctx body w
  = (Throw (APIError UNAUTHORIZED INVALID_BACKUP_CODE), w).
Proof.
  intros Hu Hf Hd.
  unfold verifyBackupCode_endpoint, andThen, lift, findOne, fetch_decode in *.
  rewrite Hu, Hf.
  destruct (decryptBackupCodes options ctx (TwoFactorTable.backupCodes twoFactor))
    as [decrypted|e]; simpl in Hd; [|discriminate].
  unfold verifyBackupCode. simpl. rewrite Hd. reflexivity.
Qed.

(** *** The generator *)

Lemma split_nonempty (n : nat) (s : string) :
  JS.slice s 0 n ++ "-" ++ JS.slice_from s n <> EmptyString.
Proof.
  unfold JS.slice. rewrite Nat.sub_0_r.
  destruct n, s; simpl; discriminate.
Qed.

Lemma split_injective (n : nat) (a b : string) :
  JS.slice a 0 n ++ "-" ++ JS.slice_from a n
  = JS.slice b 0 n ++ "-" ++ JS.slice_from b n ->
  a = b.
Proof.
  revert a b. induction n as [|n IH]; intros a b E.
  - unfold JS.slice in E. simpl in E.
    destruct a, b; simpl in E; congruence.
  - destruct a as [|x a], b as [|y b].
    + reflexivity.
    + exfalso. unfold JS.slice in E. simpl in E.
      injection E as _ E. symmetry in E.
      rewrite <- (Nat.sub_0_r n) in E at 1.
      exact (split_nonempty n b E).
    + exfalso. unfold JS.slice in E. simpl in E.
      injection E as _ E.
      rewrite <- (Nat.sub_0_r n) in E at 1.
      exact (split_nonempty n a E).
    + unfold JS.slice in *. simpl in E. injection E as -> E.
      f_equal. apply IH. now rewrite !Nat.sub_0_r.
Qed.

Lemma format_injective (a b : string) : format a = format b -> a = b.
Proof. apply split_injective. Qed.

Lemma NoDup_map_format (l : list string) : NoDup l -> NoDup (map format l).
Proof.
  intros N. induction N as [|x l Hx N IH]; simpl; constructor.
  - rewrite in_map_iff. intros (y & Ey & Iy).
    apply format_injective in Ey. now subst.
  - exact IH.
Qed.

Lemma length_randomStrings (n len : nat) (e : entropy) :
  List.length (fst (randomStrings n len e)) = n.
Proof.
  revert e. induction n as [|n IH]; intros e; simpl; [reflexivity|].
  destruct (generateRandomString len _ e) as [code e1].
  specialize (IH e1). destruct (randomStrings n len e1) as [codes e2].
  simpl in *. now rewrite IH.
Qed.

(** C6, as the code has it.  The default generator draws one random
    string per slot and formats it; it compares no code with another.
    The batch has the size asked for, and its codes are pairwise
    distinct exactly when the strings drawn are. *)
Theorem generated_codes_distinct_iff_draws_distinct
        (options : BackupCodeOptions.t) (e : entropy) :
  let n := default (BackupCodeOptions.amount options) 10 in
  let len := default (BackupCodeOptions.length options) 10 in
  let raw := fst (randomStrings n len e) in
  let codes := fst (generateBackupCodesFn options e) in
  codes = map format raw
  /\ List.length codes = n
  /\ (NoDup codes <-> NoDup raw).
Proof.
  intros n len raw codes.
  assert (E : codes = map format raw).
  { unfold codes, raw, generateBackupCodesFn. fold n. fold len.
    now destruct (randomStrings n len e). }
  split; [exact E|]. split.
  - rewrite E, length_map. apply length_randomStrings.
  - rewrite E. split.
    + apply NoDup_map_inv.
    + apply NoDup_map_format.
Qed.

(** C8, as the code has it.  With [amount = 3] and [length = 6], when
    the random source yields [ab12cd], [EF34gh] and [99zzYY], the
    batch is [ab12c-d], [EF34g-h], [99zzY-Y]: the separator follows
    the fifth character (a 5-1 split of six characters).  Encrypting
    the batch under a key and decrypting it under the same key returns
    the same three codes in the same order. *)
Theorem concrete_scenario (key : string) (e e1 e2 e3 : entropy) :
  generateRandomString 6 [alpha_a_z; alpha_0_9; alpha_A_Z] e = ("ab12cd", e1) ->
  generateRandomString 6 [alpha_a_z; alpha_0_9; alpha_A_Z] e1 = ("EF34gh", e2) ->
  generateRandomString 6 [alpha_a_z; alpha_0_9; alpha_A_Z] e2 = ("99zzYY", e3) ->
  let options := BackupCodeOptions.make (Some 3) (Some 6) None None in
  let g := fst (generateBackupCodes key options e) in
  Generated.backupCodes g = ["ab12c-d"; "EF34g-h"; "99zzY-Y"]
  /\ getBackupCodes (Generated.encryptedBackupCodes g) key
     = Ok (Some ["ab12c-d"; "EF34g-h"; "99zzY-Y"]).
Proof.
  intros H1 H2 H3 options g.
  assert (Hb : Generated.backupCodes g = ["ab12c-d"; "EF34g-h"; "99zzY-Y"]).
  { unfold g, generateBackupCodes, options, generateBackupCodesFn. simpl.
    rewrite H1, H2, H3. simpl.
    now destruct (symmetricEncrypt key _ e3). }
  split; [exact Hb|].
  destruct (generateBackupCodes_sealed key options e) as [e' Hs].
  fold g in Hs. rewrite Hs, Hb.
  now apply getBackupCodes_sealed.
Qed.

(** *** What the persist step writes, and what the view endpoint
    returns *)

(** After a match the record of the user holds the value-layer
    encryption of the remainder, whatever the storage strategy:
    [storeBackupCodes] is not applied. *)
Lemma persisted_blob (options : BackupCodeOptions.t)
      (ctx : Context.t) (body : VerifyBody) (w w' : World)
      (user : User) (twoFactor : TwoFactorTable.t) (codes : list string)
      (r : VerifyResponse) :
  Context.verifyTwoFactor ctx = Ok user ->
  Adapter.findOne (rows w) (id user) = Some twoFactor ->
  fetch_decode options ctx (TwoFactorTable.backupCodes twoFactor)
    = Ok (Some codes) ->
  verifyBackupCode_endpoint options ctx body w = (Ok r, w') ->
  JS.includes codes (body_code body) = true
  /\ Adapter.findOne (rows w') (id user)
     = Some (Adapter.set_backupCodes
               (fst (symmetricEncrypt (Context.secret ctx)
                       (JSON.stringify (remainder codes (body_code body)))
                       (random w)))
               twoFactor).
Proof.
  intros Hu Hf Hd E.
  rewrite (verify_endpoint_decoded options ctx body w user twoFactor codes
             Hu Hf Hd) in E.
  destruct (JS.includes codes (body_code body)); [|discriminate].
  split; [reflexivity|].
  inversion E; subst; clear E. simpl.
  now rewrite AdapterFacts.findOne_updateMany, Hf.
Qed.

(** Under the plain strategy the persisted blob decodes into the
    remainder. *)
Lemma persisted_blob_decodes_plain (options : BackupCodeOptions.t)
      (ctx : Context.t) (codes : list string) (e : entropy) :
  BackupCodeOptions.storeBackupCodes options = Some plain
  \/ BackupCodeOptions.storeBackupCodes options = None ->
  fetch_decode options ctx
    (fst (symmetricEncrypt (Context.secret ctx) (JSON.stringify codes) e))
  = Ok (Some codes).
Proof.
  intros Hs. unfold fetch_decode, decryptBackupCodes.
  destruct Hs as [-> | ->]; simpl; now apply getBackupCodes_sealed.
Qed.

(** Under the encrypted strategy the fetch-decode path hands the JSON
    text of the remainder, not a ciphertext, to the value-layer
    decryption. *)
Lemma persisted_blob_decodes_encrypted (options : BackupCodeOptions.t)
      (ctx : Context.t) (codes : list string) (e : entropy) :
  BackupCodeOptions.storeBackupCodes options = Some encrypted ->
  fetch_decode options ctx
    (fst (symmetricEncrypt (Context.secret ctx) (JSON.stringify codes) e))
  = getBackupCodes (JSON.stringify codes) (Context.secret ctx).
Proof.
  intros Hs. unfold fetch_decode, decryptBackupCodes. rewrite Hs.
  now rewrite roundtrip.
Qed.

(** Under the plain strategy the view endpoint answers with the stored
    blob itself, the ciphertext of the value layer. *)
Lemma view_returns_stored_blob_plain (options : BackupCodeOptions.t)
      (ctx : Context.t) (userId : string) (w : World)
      (twoFactor : TwoFactorTable.t) (codes : list string) :
  BackupCodeOptions.storeBackupCodes options = Some plain
  \/ BackupCodeOptions.storeBackupCodes options = None ->
  Adapter.findOne (rows w) userId = Some twoFactor ->
  getBackupCodes (TwoFactorTable.backupCodes twoFactor) (Context.secret ctx)
    = Ok (Some codes) ->
  viewBackupCodes_endpoint options ctx userId w
  = (Ok {| view_status := true;
           view_backupCodes := TwoFactorTable.backupCodes twoFactor |}, w).
Proof.
  intros Hs Hf Hg.
  unfold viewBackupCodes_endpoint, andThen, lift, findOne, ret, decryptBackupCodes.
  rewrite Hf, Hg. destruct Hs as [-> | ->]; reflexivity.
Qed.

(** An exception of the fetch-decode path ([symmetricDecrypt], a custom
    [decrypt], [JSON.parse]) is not caught: it is the outcome of the
    verification. *)
Lemma undecodable_blob_propagates (options : BackupCodeOptions.t)
      (ctx : Context.t) (body : VerifyBody) (w : World)
      (user : User) (twoFactor : TwoFactorTable.t) (e : exn) :
  Context.verifyTwoFactor ctx = Ok user ->
  Adapter.findOne (rows w) (id user) = Some twoFactor ->
  fetch_decode options ctx (TwoFactorTable.backupCodes twoFactor) = Throw e ->
  verifyBackupCode_endpoint options ctx body w = (Throw e, w).
Proof.
  intros Hu Hf Hd.
  unfold verifyBackupCode_endpoint, andThen, lift, findOne, fetch_decode in *.
  rewrite Hu, Hf.
  destruct (decryptBackupCodes options ctx (TwoFactorTable.backupCodes twoFactor))
    as [decrypted|e0]; simpl in Hd.
  - unfold verifyBackupCode. simpl. rewrite Hd. reflexivity.
  - now injection Hd as ->.
Qed.

End Properties.

(* ------------------------------------------------------------------ *)
(** ** The reference instance satisfies what is assumed *)

Module ReferenceFacts.
Import Reference.

Lemma strip_prefix_append (p s : string) : strip_prefix p (p ++ s) = Some s.
Proof.
  induction p as [|c p IH]; simpl; [reflexivity|].
  now rewrite Ascii.eqb_refl.
Qed.

Lemma strip_header (key data : string) :
  strip_prefix (key ++ "|") (key ++ "|" ++ data) = Some data.
Proof. rewrite <- append_assoc. apply strip_prefix_append. Qed.

Lemma reference_roundtrip : @decrypt_inverts_encrypt crypto.
Proof.
  intros key data e. simpl. unfold symmetricEncrypt, symmetricDecrypt.
  destruct (draw e) as [x e']. cbn [fst].
  now rewrite strip_header.
Qed.

Lemma wrap_unwrap : symmetric_pair Scenario.wrap Scenario.unwrap.
Proof. intros token. exists (String "#" token). split; reflexivity. Qed.

End ReferenceFacts.

(* ------------------------------------------------------------------ *)
(** ** Single consumption under the plain strategy *)

Lemma remainder_absent (codes : list string) (code : string) :
  ~ In code codes -> remainder codes code = codes.
Proof.
  unfold remainder. induction codes as [|c codes IH]; simpl; intros N.
  - reflexivity.
  - destruct (String.eqb_spec c code) as [->|D]; simpl.
    + tauto.
    + rewrite IH; tauto.
Qed.

(** Removing a code from a batch without duplicates removes its one
    occurrence and keeps the others in their order. *)
Lemma remainder_nth (codes : list string) (i : nat) (code : string) :
  NoDup codes ->
  nth_error codes i = Some code ->
  remainder codes code = (firstn i codes ++ skipn (S i) codes)%list.
Proof.
  intros N. revert i. induction N as [|c codes Hc N IH]; intros i E.
  - destruct i; discriminate.
  - destruct i as [|i]; simpl in E.
    + injection E as ->. unfold remainder. simpl.
      rewrite String.eqb_refl. simpl. now apply remainder_absent.
    + assert (D : c <> code).
      { intros ->. apply Hc. eapply nth_error_In; eassumption. }
      unfold remainder in *. simpl.
      apply String.eqb_neq in D. rewrite D. simpl.
      f_equal. now apply IH.
Qed.

Section Plain.
Context `{Crypto}.
Hypothesis roundtrip : decrypt_inverts_encrypt.

(** Under the plain strategy (also the default), for a stored batch of
    ten pairwise distinct codes: redeeming the third code succeeds, the
    persisted batch is the other nine in their order, and redeeming
    the same code again fails with [INVALID_BACKUP_CODE]. *)
Lemma single_consumption_plain (options : BackupCodeOptions.t)
      (ctx : Context.t) (body : VerifyBody) (w : World)
      (user : User) (twoFactor : TwoFactorTable.t) (codes : list string) :
  BackupCodeOptions.storeBackupCodes options = Some plain
  \/ BackupCodeOptions.storeBackupCodes options = None ->
  Context.verifyTwoFactor ctx = Ok user ->
  Adapter.findOne (rows w) (id user) = Some twoFactor ->
  fetch_decode options ctx (TwoFactorTable.backupCodes twoFactor)
    = Ok (Some codes) ->
  List.length codes = 10 ->
  NoDup codes ->
  nth_error codes 2 = Some (body_code body) ->
  exists (r : VerifyResponse) (w1 : World) (twoFactor1 : TwoFactorTable.t)
         (persisted : list string),
    verifyBackupCode_endpoint options ctx body w = (Ok r, w1)
    /\ verifyBackupCode_endpoint options ctx body w1
       = (Throw (APIError UNAUTHORIZED INVALID_BACKUP_CODE), w1)
    /\ Adapter.findOne (rows w1) (id user) = Some twoFactor1
    /\ fetch_decode options ctx (TwoFactorTable.backupCodes twoFactor1)
       = Ok (Some persisted)
    /\ List.length persisted = 9
    /\ ~ In (body_code body) persisted
    /\ persisted = (firstn 2 codes ++ skipn 3 codes)%list.
Proof.
  intros Hs Hu Hf Hd Hlen Hnd Hnth.
  pose proof (verify_endpoint_decoded options ctx body w user twoFactor codes
                Hu Hf Hd) as V.
  assert (Hin : JS.includes codes (body_code body) = true).
  { apply includes_In. eapply nth_error_In; eassumption. }
  rewrite Hin in V.
  set (blob := fst (symmetricEncrypt (Context.secret ctx)
                      (JSON.stringify (remainder codes (body_code body)))
                      (random w))) in *.
  match type of V with _ = (Ok ?r, ?s) => set (w1 := s) in *; exists r, w1 end.
  exists (Adapter.set_backupCodes blob twoFactor), (remainder codes (body_code body)).
  assert (Hf1 : Adapter.findOne (rows w1) (id user)
                = Some (Adapter.set_backupCodes blob twoFactor)).
  { unfold w1. cbn [rows]. now rewrite AdapterFacts.findOne_updateMany, Hf. }
  assert (Hd1 : fetch_decode options ctx
                  (TwoFactorTable.backupCodes (Adapter.set_backupCodes blob twoFactor))
                = Ok (Some (remainder codes (body_code body)))).
  { simpl. unfold blob. now apply persisted_blob_decodes_plain. }
  split; [exact V|]. split.
  - rewrite (verify_endpoint_decoded options ctx body w1 user _ _ Hu Hf1 Hd1).
    destruct (JS.includes (remainder codes (body_code body)) (body_code body)) eqn:Ei.
    + apply includes_In in Ei. now apply remainder_excludes in Ei.
    + reflexivity.
  - split; [exact Hf1|]. split; [exact Hd1|].
    pose proof (length_remainder codes (body_code body)) as L.
    rewrite Hlen in L.
    assert (C : count_occ string_dec codes (body_code body) = 1).
    { apply NoDup_count_occ'; [assumption|].
      eapply nth_error_In; eassumption. }
    split; [lia|]. split; [apply remainder_excludes|].
    now apply remainder_nth.
Qed.

End Plain.

(* ------------------------------------------------------------------ *)
(** ** The properties at the concrete deployment *)

Module Concrete.
Import Scenario.
#[local] Existing Instance Reference.crypto.

Lemma batch_NoDup : NoDup batch.
Proof.
  unfold batch.
  repeat (constructor; [simpl; intuition discriminate|]). constructor.
Qed.

(** C1.  Under the encrypted strategy, and under a custom one, the
    blob that a successful verification writes back is not readable by
    the fetch-decode path: the endpoint persists the value-layer
    ciphertext without applying [storeBackupCodes], so the next
    verification, even with a code that is still in the batch, ends in
    the exception of the value-layer decryption (of the custom
    [decrypt]), not in success. *)
Theorem persisted_blob_unreadable_when_encrypted :
  fst (verifyBackupCode_endpoint (options encrypted) ctx (body "h8Vc5-Nq6Ys")
         (enrolled encrypted))
  = Ok (Valid alice)
  /\ (exists r : TwoFactorTable.t,
         Adapter.findOne (rows (redeemed encrypted)) "alice" = Some r
         /\ getBackupCodes (TwoFactorTable.backupCodes r) secret
            = Ok (Some (remainder batch "h8Vc5-Nq6Ys"))
         /\ fetch_decode (options encrypted) ctx (TwoFactorTable.backupCodes r)
            = Throw DecryptError)
  /\ In "P1eD4-uG9oK" (remainder batch "h8Vc5-Nq6Ys")
  /\ verifyBackupCode_endpoint (options encrypted) ctx (body "P1eD4-uG9oK")
       (redeemed encrypted)
     = (Throw DecryptError, redeemed encrypted)
  /\ verifyBackupCode_endpoint (options (custom wrap unwrap)) ctx
       (body "P1eD4-uG9oK") (redeemed (custom wrap unwrap))
     = (Throw CustomError, redeemed (custom wrap unwrap)).
Proof.
  split; [vm_compute; reflexivity|].
  split.
  { eexists. split; [vm_compute; reflexivity|].
    split; vm_compute; reflexivity. }
  split; [vm_compute; tauto|].
  split; vm_compute; reflexivity.
Qed.

(** C2.  Under the encrypted strategy, for the stored batch of ten
    pairwise distinct codes: the first verification with the third
    code succeeds and the value layer of the persisted blob holds the
    other nine codes in their order, but the second verification with
    the same code ends in the exception of the value-layer decryption,
    not in [INVALID_BACKUP_CODE]. *)
Theorem second_redemption_when_encrypted :
  List.length batch = 10
  /\ NoDup batch
  /\ nth_error batch 2 = Some "h8Vc5-Nq6Ys"
  /\ fst (verifyBackupCode_endpoint (options encrypted) ctx (body "h8Vc5-Nq6Ys")
            (enrolled encrypted))
     = Ok (Valid alice)
  /\ (exists r : TwoFactorTable.t,
         Adapter.findOne (rows (redeemed encrypted)) "alice" = Some r
         /\ getBackupCodes (TwoFactorTable.backupCodes r) secret
            = Ok (Some (firstn 2 batch ++ skipn 3 batch)%list))
  /\ verifyBackupCode_endpoint (options encrypted) ctx (body "h8Vc5-Nq6Ys")
       (redeemed encrypted)
     = (Throw DecryptError, redeemed encrypted)
  /\ Throw DecryptError
     <> (Throw (APIError UNAUTHORIZED INVALID_BACKUP_CODE) : result VerifyResponse).
Proof.
  split; [reflexivity|].
  split; [exact batch_NoDup|].
  split; [reflexivity|].
  split; [vm_compute; reflexivity|].
  split; [eexists; split; vm_compute; reflexivity|].
  split; [vm_compute; reflexivity|discriminate].
Qed.

(** C3, counterexample.  The record exists and its blob decrypts to
    the JSON text [[1]], which is no list of code strings; the
    verification fails with [INVALID_BACKUP_CODE], not with
    [BACKUP_CODES_NOT_ENABLED]. *)
Lemma malformed_batch_reports_invalid_code :
  Adapter.findOne (rows malformed) "alice" <> None
  /\ fetch_decode (options plain) ctx
       (fst (Reference.symmetricEncrypt secret "[1]" []))
     = Ok None
  /\ fst (verifyBackupCode_endpoint (options plain) ctx (body "h8Vc5-Nq6Ys")
            malformed)
     = Throw (APIError UNAUTHORIZED INVALID_BACKUP_CODE)
  /\ forall status : Status,
       fst (verifyBackupCode_endpoint (options plain) ctx (body "h8Vc5-Nq6Ys")
              malformed)
       <> Throw (APIError status BACKUP_CODES_NOT_ENABLED).
Proof.
  split; [vm_compute; discriminate|].
  split; [vm_compute; reflexivity|].
  split; [vm_compute; reflexivity|].
  intros status. vm_compute. discriminate.
Qed.

(** C4.  The view endpoint does not answer with the codes.  Under the
    plain strategy its [backupCodes] is the stored blob, the
    value-layer ciphertext of the batch; under the encrypted strategy
    it hands the blob with its storage layer still on to
    [getBackupCodes] and ends in the [SyntaxError] of [JSON.parse]. *)
Theorem view_answers_with_ciphertext :
  (exists r : TwoFactorTable.t,
      Adapter.findOne (rows (enrolled plain)) "alice" = Some r
      /\ getBackupCodes (TwoFactorTable.backupCodes r) secret = Ok (Some batch)
      /\ viewBackupCodes_endpoint (options plain) ctx "alice" (enrolled plain)
         = (Ok {| view_status := true;
                  view_backupCodes := TwoFactorTable.backupCodes r |},
            enrolled plain)
      /\ TwoFactorTable.backupCodes r
         = fst (Reference.symmetricEncrypt secret (JSON.stringify batch) [7])
      /\ TwoFactorTable.backupCodes r <> JSON.stringify batch)
  /\ viewBackupCodes_endpoint (options encrypted) ctx "alice" (enrolled encrypted)
     = (Throw SyntaxError, enrolled encrypted).
Proof.
  split.
  - eexists. split; [vm_compute; reflexivity|].
    split; [vm_compute; reflexivity|].
    split; [vm_compute; reflexivity|].
    split; [vm_compute; reflexivity|].
    vm_compute. discriminate.
  - vm_compute. reflexivity.
Qed.

(** C6, counterexample.  Two codes of the default length from a
    random source that yields the same ten draws twice: the two codes
    are equal. *)
Lemma equal_draws_give_equal_codes :
  fst (generateBackupCodesFn (BackupCodeOptions.make (Some 2) None None None)
         repeated_draws)
  = ["dbebf-jcgfd"; "dbebf-jcgfd"]
  /\ ~ NoDup (fst (generateBackupCodesFn
                     (BackupCodeOptions.make (Some 2) None None None)
                     repeated_draws)).
Proof.
  split; [vm_compute; reflexivity|].
  intros N. vm_compute in N. inversion N as [|x l Hx _]; subst.
  apply Hx. now left.
Qed.

(** C8, counterexample.  With [amount = 3] and [length = 6] and the
    draws that spell [ab12cd], [EF34gh], [99zzYY], the separator of
    each code follows its fifth character; no code has the 3-3
    form. *)
Lemma separator_follows_fifth_character :
  fst (generateBackupCodesFn (BackupCodeOptions.make (Some 3) (Some 6) None None)
         spelled_draws)
  = ["ab12c-d"; "EF34g-h"; "99zzY-Y"]
  /\ fst (generateBackupCodesFn (BackupCodeOptions.make (Some 3) (Some 6) None None)
            spelled_draws)
     <> ["ab1-2cd"; "EF3-4gh"; "99z-zYY"].
Proof.
  split; [vm_compute; reflexivity|].
  vm_compute. discriminate.
Qed.

End Concrete.

(* ------------------------------------------------------------------ *)
(** ** Instances of the general theorems *)

Module Witness.
Import Scenario.
#[local] Existing Instance Reference.crypto.

Lemma malformed_batch_is_invalid_code_witness :
  fetch_decode (options plain) ctx
    (fst (Reference.symmetricEncrypt secret "[1]" []))
  = Ok None
  /\ verifyBackupCode_endpoint (options plain) ctx (body "h8Vc5-Nq6Ys") malformed
     = (Throw (APIError UNAUTHORIZED INVALID_BACKUP_CODE), malformed).
Proof.
  split; [vm_compute; reflexivity|].
  apply (malformed_batch_is_invalid_code (options plain) ctx (body "h8Vc5-Nq6Ys")
           malformed alice
           (TwoFactorTable.make "alice" "totp-alice"
              (fst (Reference.symmetricEncrypt secret "[1]" [])))).
  - reflexivity.
  - vm_compute; reflexivity.
  - vm_compute; reflexivity.
Defined.

Lemma decode_encode_roundtrip_witness :
  symmetric_strategy (Some (custom wrap unwrap))
  /\ Generated.backupCodes
       (fst (generateBackupCodes (Context.secret ctx)
               (options (custom wrap unwrap)) [5]))
     = batch
  /\ exists (stored : string) (w' : World),
       storeBackupCodes (options (custom wrap unwrap)) ctx
         (Generated.encryptedBackupCodes
            (fst (generateBackupCodes (Context.secret ctx)
                    (options (custom wrap unwrap)) [5])))
         initial
       = (Ok stored, w')
       /\ fetch_decode (options (custom wrap unwrap)) ctx stored
          = Ok (Some (Generated.backupCodes
                        (fst (generateBackupCodes (Context.secret ctx)
                                (options (custom wrap unwrap)) [5])))).
Proof.
  split; [exact ReferenceFacts.wrap_unwrap|].
  exact (decode_encode_roundtrip ReferenceFacts.reference_roundtrip
           (options (custom wrap unwrap)) ctx [5] initial
           ReferenceFacts.wrap_unwrap).
Defined.

Lemma regeneration_discards_prior_batch_witness :
  generateBackupCodes_endpoint (options encrypted) ctx "password" initial
  = (Ok {| generated_status := true; generated_backupCodes := batch |},
     enrolled encrypted)
  /\ (In "old00-code1" batch ->
        exists (r : VerifyResponse) (w2 : World),
          verifyBackupCode_endpoint (options encrypted) ctx (body "old00-code1")
            (enrolled encrypted)
          = (Ok r, w2))
  /\ (~ In "old00-code1" batch ->
        verifyBackupCode_endpoint (options encrypted) ctx (body "old00-code1")
          (enrolled encrypted)
        = (Throw (APIError UNAUTHORIZED INVALID_BACKUP_CODE), enrolled encrypted)).
Proof.
  split; [vm_compute; reflexivity|].
  apply (regeneration_discards_prior_batch ReferenceFacts.reference_roundtrip
           (options encrypted) ctx ctx "password" initial (enrolled encrypted)
           {| generated_status := true; generated_backupCodes := batch |}
           alice (body "old00-code1")).
  - exact I.
  - vm_compute; discriminate.
  - vm_compute; reflexivity.
  - reflexivity.
  - reflexivity.
  - reflexivity.
Defined.

Lemma concrete_scenario_witness :
  String.length secret = 32
  /\ Generated.backupCodes
       (fst (generateBackupCodes secret
               (BackupCodeOptions.make (Some 3) (Some 6) None None)
               spelled_draws))
     = ["ab12c-d"; "EF34g-h"; "99zzY-Y"]
  /\ getBackupCodes
       (Generated.encryptedBackupCodes
          (fst (generateBackupCodes secret
                  (BackupCodeOptions.make (Some 3) (Some 6) None None)
                  spelled_draws)))
       secret
     = Ok (Some ["ab12c-d"; "EF34g-h"; "99zzY-Y"]).
Proof.
  split; [reflexivity|].
  apply (concrete_scenario ReferenceFacts.reference_roundtrip secret spelled_draws
           (skipn 6 spelled_draws) (skipn 12 spelled_draws) []);
    vm_compute; reflexivity.
Defined.

Lemma failed_verification_leaves_record_witness :
  fst (verifyBackupCode_endpoint (options plain) ctx (body "old00-code1")
         (enrolled plain))
  = Throw (APIError UNAUTHORIZED INVALID_BACKUP_CODE)
  /\ snd (verifyBackupCode_endpoint (options plain) ctx (body "old00-code1")
            (enrolled plain))
     = enrolled plain.
Proof.
  split; [vm_compute; reflexivity|].
  apply (failed_verification_leaves_record (options plain) ctx
           (body "old00-code1") (enrolled plain) _
           (APIError UNAUTHORIZED INVALID_BACKUP_CODE)).
  vm_compute; reflexivity.
Defined.

Lemma verifyBackupCode_removes_every_occurrence_witness :
  getBackupCodes
    (fst (Reference.symmetricEncrypt secret
            (JSON.stringify ["twice-00001"; "once0-00002"; "twice-00001"]) []))
    secret
  = Ok (Some ["twice-00001"; "once0-00002"; "twice-00001"])
  /\ exists updated : list string,
       verifyBackupCode
         (VerifyData.make
            (fst (Reference.symmetricEncrypt secret
                    (JSON.stringify ["twice-00001"; "once0-00002"; "twice-00001"])
                    []))
            "twice-00001")
         secret
       = Ok (Validation.make
               (JS.includes ["twice-00001"; "once0-00002"; "twice-00001"]
                            "twice-00001")
               (Some updated))
       /\ updated
          = filter (fun c => negb (String.eqb c "twice-00001"))
                   ["twice-00001"; "once0-00002"; "twice-00001"]
       /\ List.length updated
          + count_occ string_dec ["twice-00001"; "once0-00002"; "twice-00001"]
                      "twice-00001"
          = List.length ["twice-00001"; "once0-00002"; "twice-00001"]
       /\ ~ In "twice-00001" updated.
Proof.
  split; [vm_compute; reflexivity|].
  apply (verifyBackupCode_removes_every_occurrence
           (fst (Reference.symmetricEncrypt secret
                   (JSON.stringify ["twice-00001"; "once0-00002"; "twice-00001"])
                   []))
           "twice-00001" secret
           ["twice-00001"; "once0-00002"; "twice-00001"]).
  vm_compute; reflexivity.
Defined.

End Witness.

(* ------------------------------------------------------------------ *)
(** ** Further properties: the generator and the pure functions *)

Lemma split_length (n : nat) (s : string) :
  String.length (JS.slice s 0 n ++ "-" ++ JS.slice_from s n)
  = S (String.length s).
Proof.
  unfold JS.slice. rewrite Nat.sub_0_r.
  revert s. induction n as [|n IH]; intros s.
  - destruct s; reflexivity.
  - destruct s as [|c s]; [reflexivity|]. simpl. now rewrite IH.
Qed.

Lemma split_get (n : nat) (s : string) :
  let k := Nat.min n (String.length s) in
  String.get k (JS.slice s 0 n ++ "-" ++ JS.slice_from s n) = Some "-"%char
  /\ (forall i, i < k ->
        String.get i (JS.slice s 0 n ++ "-" ++ JS.slice_from s n)
        = String.get i s)
  /\ (forall i, k <= i ->
        String.get (S i) (JS.slice s 0 n ++ "-" ++ JS.slice_from s n)
        = String.get i s).
Proof.
  unfold JS.slice. rewrite Nat.sub_0_r.
  revert s. induction n as [|n IH]; intros s.
  - simpl. split; [|split].
    + destruct s; reflexivity.
    + intros i Hi. lia.
    + intros i _. destruct s; reflexivity.
  - destruct s as [|c s].
    + simpl. split; [|split].
      * reflexivity.
      * intros i Hi. lia.
      * intros i _. destruct i; reflexivity.
    + destruct (IH s) as (Hd & Hlt & Hge).
      change (Nat.min (S n) (String.length (String c s)))
        with (S (Nat.min n (String.length s))).
      cbn [substring JS.slice_from append]. split; [|split].
      * exact Hd.
      * intros [|i] Hi; [reflexivity|]. simpl. apply Hlt. lia.
      * intros [|i] Hi; [lia|]. simpl. apply Hge. lia.
Qed.

Lemma substring_all (n : nat) (s : string) :
  String.length s <= n -> substring 0 n s = s.
Proof.
  revert s. induction n as [|n IH]; intros [|c s] L; simpl in *;
    try reflexivity; try lia.
  rewrite IH; [reflexivity|lia].
Qed.

Lemma slice_from_all (n : nat) (s : string) :
  String.length s <= n -> JS.slice_from s n = EmptyString.
Proof.
  revert s. induction n as [|n IH]; intros [|c s] L; simpl in *;
    try reflexivity; try lia.
  apply IH. lia.
Qed.

Lemma count_occ_remainder (codes : list string) (code c : string) :
  c <> code ->
  count_occ string_dec (remainder codes code) c = count_occ string_dec codes c.
Proof.
  intros D. unfold remainder. induction codes as [|x codes IH]; simpl;
    [reflexivity|].
  destruct (String.eqb_spec x code) as [->|N]; simpl.
  - destruct (string_dec code c); [congruence|exact IH].
  - destruct (string_dec x c); now rewrite IH.
Qed.

Lemma NoDup_remainder (codes : list string) (code : string) :
  NoDup codes -> NoDup (remainder codes code).
Proof. unfold remainder. apply NoDup_filter. Qed.

Section PureFunctions.
Context `{Crypto}.
Hypothesis roundtrip : decrypt_inverts_encrypt.

(** X1.  The shape of a formatted code: it is one character longer
    than the random string, its separator sits at index 5, or at the
    end when the string has fewer than five characters, and the
    characters before and after the separator are those of the string
    in their order. *)
Theorem format_shape (code : string) :
  let k := Nat.min 5 (String.length code) in
  String.length (format code) = S (String.length code)
  /\ String.get k (format code) = Some "-"%char
  /\ (forall i, i < k -> String.get i (format code) = String.get i code)
  /\ (forall i, k <= i -> String.get (S i) (format code) = String.get i code).
Proof.
  intros k. split; [apply split_length|]. apply (split_get 5 code).
Qed.

(** X2.  A random string of at most five characters is not split: the
    separator is appended to it. *)
Theorem format_short (code : string) :
  String.length code <= 5 -> format code = code ++ "-".
Proof.
  intros L. unfold format, JS.slice. rewrite Nat.sub_0_r.
  now rewrite (substring_all 5 code L), (slice_from_all 5 code L).
Qed.

(** X3.  Whatever the options, default generator or custom one, the
    ciphertext that [generateBackupCodes] returns is read back by
    [getBackupCodes] under the same key as the list of codes it returns
    beside it. *)
Theorem generated_batch_decrypts (secret : string)
        (options : BackupCodeOptions.t) (e : entropy) :
  getBackupCodes
    (Generated.encryptedBackupCodes (fst (generateBackupCodes secret options e)))
    secret
  = Ok (Some (Generated.backupCodes (fst (generateBackupCodes secret options e)))).
Proof.
  destruct (generateBackupCodes_sealed secret options e) as [e1 E].
  rewrite E. now apply getBackupCodes_sealed.
Qed.

(** X5.  For a blob that decodes into [codes], the [status] of
    [verifyBackupCode] is [true] exactly when the presented code occurs
    in the batch, and [updated] is the very batch when it does not. *)
Theorem verifyBackupCode_status (blob code key : string) (codes : list string) :
  getBackupCodes blob key = Ok (Some codes) ->
  exists v : Validation.t,
    verifyBackupCode (VerifyData.make blob code) key = Ok v
    /\ (Validation.status v = true <-> In code codes)
    /\ (~ In code codes -> Validation.updated v = Some codes).
Proof.
  intros E. rewrite (verifyBackupCode_decoded _ _ _ _ E).
  eexists. split; [reflexivity|]. simpl. split.
  - apply includes_In.
  - intros N. now rewrite remainder_absent.
Qed.

(** X6.  For a blob that decodes into [codes], [verifyBackupCode] removes
    nothing but the presented code: every other code occurs in
    [updated] as often as in the batch. *)
Theorem verifyBackupCode_keeps_other_codes
        (blob code key : string) (codes : list string) :
  getBackupCodes blob key = Ok (Some codes) ->
  exists (status : bool) (updated : list string),
    verifyBackupCode (VerifyData.make blob code) key
      = Ok (Validation.make status (Some updated))
    /\ forall c : string,
         c <> code ->
         count_occ string_dec updated c = count_occ string_dec codes c.
Proof.
  intros E. rewrite (verifyBackupCode_decoded _ _ _ _ E).
  eexists _, _. split; [reflexivity|].
  intros c D. now apply count_occ_remainder.
Qed.

(** X7.  For a blob that decodes into a batch without duplicates whose
    code at index [i] is the presented one, [updated] is the batch with
    that one position taken out: one code shorter, the other codes in
    their order, still without duplicates. *)
Theorem verifyBackupCode_unique_hit
        (blob code key : string) (codes : list string) (i : nat) :
  getBackupCodes blob key = Ok (Some codes) ->
  NoDup codes ->
  nth_error codes i = Some code ->
  exists updated : list string,
    verifyBackupCode (VerifyData.make blob code) key
      = Ok (Validation.make true (Some updated))
    /\ updated = (firstn i codes ++ skipn (S i) codes)%list
    /\ S (List.length updated) = List.length codes
    /\ NoDup updated.
Proof.
  intros E N Hi. rewrite (verifyBackupCode_decoded _ _ _ _ E).
  assert (I : In code codes) by (eapply nth_error_In; eassumption).
  exists (remainder codes code). split.
  - apply includes_In in I. now rewrite I.
  - split; [now apply remainder_nth|]. split.
    + pose proof (length_remainder codes code) as L.
      rewrite (NoDup_count_occ' string_dec codes) in N.
      specialize (N code I). lia.
    + now apply NoDup_remainder.
Qed.

End PureFunctions.

(* ------------------------------------------------------------------ *)
(** ** Further properties: the endpoints *)

Lemma same_rows_refl (uid : string) (rows : Adapter.table) :
  Forall2 (same_row_but_blob_of uid) rows rows.
Proof.
  induction rows as [|r rows IH]; constructor; [|exact IH].
  repeat split.
Qed.

Lemma updateMany_frame (uid blob : string) (rows : Adapter.table) :
  Forall2 (same_row_but_blob_of uid) rows (Adapter.updateMany rows uid blob).
Proof.
  unfold Adapter.updateMany.
  induction rows as [|r rows IH]; simpl; constructor; [|exact IH].
  unfold Adapter.matches. destruct (String.eqb_spec (TwoFactorTable.userId r) uid).
  - split; [reflexivity|]. split; [reflexivity|]. intros N. contradiction.
  - repeat split.
Qed.

Lemma update_frame (uid blob : string) (rows : Adapter.table) :
  Forall2 (same_row_but_blob_of uid) rows (Adapter.update rows uid blob).
Proof.
  induction rows as [|r rows IH]; simpl; [constructor|].
  unfold Adapter.matches. destruct (String.eqb_spec (TwoFactorTable.userId r) uid).
  - constructor; [|apply same_rows_refl].
    split; [reflexivity|]. split; [reflexivity|]. intros N. contradiction.
  - constructor; [|exact IH]. repeat split.
Qed.

Lemma update_absent (uid blob : string) (rows : Adapter.table) :
  Adapter.findOne rows uid = None -> Adapter.update rows uid blob = rows.
Proof.
  unfold Adapter.findOne. induction rows as [|r rows IH]; simpl; [reflexivity|].
  destruct (Adapter.matches uid r); [discriminate|].
  intros E. now rewrite IH.
Qed.

Section Endpoints.
Context `{Crypto}.
Hypothesis roundtrip : decrypt_inverts_encrypt.

(** X8.  Absence: when the user of the pending sign-in has no record,
    the verification endpoint throws [BAD_REQUEST] with
    [BACKUP_CODES_NOT_ENABLED], whatever the code, the flags and the
    storage strategy, and leaves the state as it was. *)
Theorem verification_without_record
        (options : BackupCodeOptions.t) (ctx : Context.t)
        (body : VerifyBody) (w : World) (user : User) :
  Context.verifyTwoFactor ctx = Ok user ->
  Adapter.findOne (rows w) (id user) = None ->
  verifyBackupCode_endpoint options ctx body w
  = (Throw (APIError BAD_REQUEST BACKUP_CODES_NOT_ENABLED), w).
Proof.
  intros Hu Hf.
  unfold verifyBackupCode_endpoint, andThen, lift, findOne.
  now rewrite Hu, Hf.
Qed.

(** X9.  A used-up batch is not an absent one: when the record decodes
    into the empty list, every presented code is answered with
    [UNAUTHORIZED] and [INVALID_BACKUP_CODE], and the state stays as it
    was. *)
Theorem verification_of_exhausted_batch
        (options : BackupCodeOptions.t) (ctx : Context.t)
        (body : VerifyBody) (w : World)
        (user : User) (twoFactor : TwoFactorTable.t) :
  Context.verifyTwoFactor ctx = Ok user ->
  Adapter.findOne (rows w) (id user) = Some twoFactor ->
  fetch_decode options ctx (TwoFactorTable.backupCodes twoFactor) = Ok (Some []) ->
  verifyBackupCode_endpoint options ctx body w
  = (Throw (APIError UNAUTHORIZED INVALID_BACKUP_CODE), w).
Proof.
  intros Hu Hf Hd.
  now rewrite (verify_endpoint_decoded options ctx body w user twoFactor []
                 Hu Hf Hd).
Qed.

(** X10.  What a successful verification tells: the user had a record,
    its blob decoded into a batch that holds the presented code, and
    the state differs from the earlier one in that every row of the
    user now holds the encryption, under the application secret, of the
    JSON text of the batch without that code. *)
Theorem verification_success_inversion
        (options : BackupCodeOptions.t) (ctx : Context.t)
        (body : VerifyBody) (w w' : World) (r : VerifyResponse) :
  verifyBackupCode_endpoint options ctx body w = (Ok r, w') ->
  exists (user : User) (twoFactor : TwoFactorTable.t) (codes : list string),
    Context.verifyTwoFactor ctx = Ok user
    /\ Adapter.findOne (rows w) (id user) = Some twoFactor
    /\ fetch_decode options ctx (TwoFactorTable.backupCodes twoFactor)
       = Ok (Some codes)
    /\ In (body_code body) codes
    /\ rows w'
       = Adapter.updateMany (rows w) (id user)
           (fst (symmetricEncrypt (Context.secret ctx)
                   (JSON.stringify
                      (filter (fun c => negb (String.eqb c (body_code body))) codes))
                   (random w)))
    /\ random w'
       = snd (symmetricEncrypt (Context.secret ctx)
                (JSON.stringify
                   (filter (fun c => negb (String.eqb c (body_code body))) codes))
                (random w)).
Proof.
  intros E.
  destruct (Context.verifyTwoFactor ctx) as [user|e0] eqn:Hu.
  2:{ unfold verifyBackupCode_endpoint, andThen, lift in E.
      rewrite Hu in E. discriminate. }
  destruct (Adapter.findOne (rows w) (id user)) as [twoFactor|] eqn:Hf.
  2:{ unfold verifyBackupCode_endpoint, andThen, lift, findOne in E.
      rewrite Hu, Hf in E. discriminate. }
  destruct (fetch_decode options ctx (TwoFactorTable.backupCodes twoFactor))
    as [[codes|]|e1] eqn:Hd.
  - exists user, twoFactor, codes.
    rewrite (verify_endpoint_decoded options ctx body w user twoFactor codes
               Hu Hf Hd) in E.
    destruct (JS.includes codes (body_code body)) eqn:Ei; [|discriminate].
    apply includes_In in Ei. inversion E; subst; clear E. simpl.
    repeat (split; [first [reflexivity | assumption]|]). reflexivity.
  - unfold verifyBackupCode_endpoint, andThen, lift, findOne, fetch_decode in *.
    rewrite Hu, Hf in E.
    destruct (decryptBackupCodes options ctx (TwoFactorTable.backupCodes twoFactor))
      as [decrypted|e2]; simpl in Hd; [|discriminate].
    unfold verifyBackupCode in E. simpl in E. rewrite Hd in E. discriminate.
  - unfold verifyBackupCode_endpoint, andThen, lift, findOne, fetch_decode in *.
    rewrite Hu, Hf in E.
    destruct (decryptBackupCodes options ctx (TwoFactorTable.backupCodes twoFactor))
      as [decrypted|e2]; simpl in Hd.
    + unfold verifyBackupCode in E. simpl in E. rewrite Hd in E. discriminate.
    + discriminate.
Qed.

(** X11.  Whatever its outcome, the verification endpoint keeps the
    number and the order of the rows, the owner and the factor secret
    of every row, and the whole row of every user other than the one of
    the pending sign-in. *)
Theorem verification_frame
        (options : BackupCodeOptions.t) (ctx : Context.t)
        (body : VerifyBody) (w : World) (user : User) :
  Context.verifyTwoFactor ctx = Ok user ->
  Forall2 (same_row_but_blob_of (id user))
          (rows w)
          (rows (snd (verifyBackupCode_endpoint options ctx body w))).
Proof.
  intros Hu.
  unfold verifyBackupCode_endpoint, andThen, lift, findOne, throw.
  rewrite Hu.
  destruct (Adapter.findOne (rows w) (id user)) as [twoFactor|];
    [|apply same_rows_refl].
  destruct (decryptBackupCodes options ctx (TwoFactorTable.backupCodes twoFactor))
    as [decrypted|e1]; [|apply same_rows_refl].
  destruct (verifyBackupCode _ _) as [validate|e2]; [|apply same_rows_refl].
  destruct (negb (Validation.status validate)); [apply same_rows_refl|].
  unfold withRandom, updateMany, ret.
  destruct (symmetricEncrypt _ _ _) as [blob e'].
  destruct (disableSession body) as [[|]|]; simpl; apply updateMany_frame.
Qed.

End Endpoints.

Section ViewAndRegenerate.
Context `{Crypto}.
Hypothesis roundtrip : decrypt_inverts_encrypt.

(** X13.  The view endpoint performs no mutation: whatever the options,
    the context, the user asked for and the outcome, the state after
    the call is the state before it. *)
Theorem view_never_mutates
        (options : BackupCodeOptions.t) (ctx : Context.t)
        (userId : string) (w : World) :
  snd (viewBackupCodes_endpoint options ctx userId w) = w.
Proof.
  unfold viewBackupCodes_endpoint, andThen, lift, findOne, throw, ret.
  destruct (Adapter.findOne (rows w) userId) as [twoFactor|]; [|reflexivity].
  destruct (getBackupCodes _ _) as [[codes|]|e]; try reflexivity.
  destruct (decryptBackupCodes _ _ _); reflexivity.
Qed.

(** X14.  The view endpoint answers [BAD_REQUEST] with
    [BACKUP_CODES_NOT_ENABLED] both when the user has no record and
    when [getBackupCodes] returns [null] for the stored blob. *)
Theorem view_not_enabled
        (options : BackupCodeOptions.t) (ctx : Context.t)
        (userId : string) (w : World) :
  Adapter.findOne (rows w) userId = None
  \/ (exists twoFactor : TwoFactorTable.t,
         Adapter.findOne (rows w) userId = Some twoFactor
         /\ getBackupCodes (TwoFactorTable.backupCodes twoFactor)
                           (Context.secret ctx)
            = Ok None) ->
  viewBackupCodes_endpoint options ctx userId w
  = (Throw (APIError BAD_REQUEST BACKUP_CODES_NOT_ENABLED), w).
Proof.
  unfold viewBackupCodes_endpoint, andThen, lift, findOne, throw.
  intros [Hf | (twoFactor & Hf & Hg)]; rewrite Hf; [reflexivity|].
  now rewrite Hg.
Qed.

(** X15.  A regeneration that fails, for whichever reason (the factor is
    not enabled, the password check throws, a caller-supplied [encrypt]
    throws), has written nothing: the rows are those it found. *)
Theorem failed_regeneration_leaves_rows
        (options : BackupCodeOptions.t) (ctx : Context.t)
        (password : string) (w w' : World) (e : exn) :
  generateBackupCodes_endpoint options ctx password w = (Throw e, w') ->
  rows w' = rows w.
Proof.
  unfold generateBackupCodes_endpoint, andThen, lift, throw.
  destruct (negb (twoFactorEnabled (Context.session_user ctx)));
    [now intros E; inversion E|].
  destruct (Context.checkPassword ctx _ password) as [[]|e0];
    [|now intros E; inversion E].
  unfold withRandom at 1.
  destruct (generateBackupCodes (Context.secret ctx) options (random w))
    as [g e1].
  unfold storeBackupCodes, withRandom, lift, ret, update.
  destruct (BackupCodeOptions.storeBackupCodes options) as [[| |enc dec]|].
  - discriminate.
  - destruct (symmetricEncrypt _ _ _) as [sealed e2]. discriminate.
  - destruct (enc (Generated.encryptedBackupCodes g)) as [sealed|e2].
    + discriminate.
    + now intros E; inversion E.
  - discriminate.
Qed.

(** X16.  The guards of the regeneration endpoint, in their order: a
    user who has not enabled the factor gets [BAD_REQUEST] with
    [TWO_FACTOR_NOT_ENABLED] before the password is looked at; for a
    user who has, an exception of the password check is the outcome.
    In both cases no code is generated: the state, random source
    included, is untouched. *)
Theorem regeneration_guards
        (options : BackupCodeOptions.t) (ctx : Context.t)
        (password : string) (w : World) :
  (twoFactorEnabled (Context.session_user ctx) = false ->
     generateBackupCodes_endpoint options ctx password w
     = (Throw (APIError BAD_REQUEST TWO_FACTOR_NOT_ENABLED), w))
  /\ (forall e : exn,
        twoFactorEnabled (Context.session_user ctx) = true ->
        Context.checkPassword ctx (id (Context.session_user ctx)) password
          = Throw e ->
        generateBackupCodes_endpoint options ctx password w = (Throw e, w)).
Proof.
  unfold generateBackupCodes_endpoint, andThen, lift, throw. split.
  - now intros ->.
  - intros e -> Hp. simpl. now rewrite Hp.
Qed.

(** X17.  The regeneration endpoint does not look for the record it
    updates.  For a user without one it succeeds and returns codes, yet
    stores nothing: the rows are unchanged, and a verification by that
    user still ends in [BACKUP_CODES_NOT_ENABLED]. *)
Theorem regeneration_without_record
        (options : BackupCodeOptions.t) (ctx ctx' : Context.t)
        (password : string) (w w1 : World) (resp : GenerateResponse)
        (body : VerifyBody) :
  Adapter.findOne (rows w) (id (Context.session_user ctx)) = None ->
  generateBackupCodes_endpoint options ctx password w = (Ok resp, w1) ->
  Context.verifyTwoFactor ctx' = Ok (Context.session_user ctx) ->
  rows w1 = rows w
  /\ verifyBackupCode_endpoint options ctx' body w1
     = (Throw (APIError BAD_REQUEST BACKUP_CODES_NOT_ENABLED), w1).
Proof.
  intros Hf E Hu.
  assert (R : rows w1 = rows w).
  { revert E.
    unfold generateBackupCodes_endpoint, andThen, lift, throw.
    destruct (negb (twoFactorEnabled (Context.session_user ctx)));
      [discriminate|].
    destruct (Context.checkPassword ctx _ password) as [[]|e0]; [|discriminate].
    unfold withRandom at 1.
    destruct (generateBackupCodes (Context.secret ctx) options (random w))
      as [g e1].
    unfold storeBackupCodes, withRandom, lift, ret, update.
    destruct (BackupCodeOptions.storeBackupCodes options) as [[| |enc dec]|].
    - intros E. inversion E; subst. simpl. now apply update_absent.
    - destruct (symmetricEncrypt _ _ _) as [sealed e2].
      intros E. inversion E; subst. simpl. now apply update_absent.
    - destruct (enc (Generated.encryptedBackupCodes g)) as [sealed|e2];
        [|discriminate].
      intros E. inversion E; subst. simpl. now apply update_absent.
    - intros E. inversion E; subst. simpl. now apply update_absent. }
  split; [exact R|].
  unfold verifyBackupCode_endpoint, andThen, lift, findOne.
  now rewrite Hu, R, Hf.
Qed.

(** X18.  Whatever its outcome, the regeneration endpoint keeps the
    number and the order of the rows, the owner and the factor secret
    of every row, and the whole row of every user other than the
    signed-in one. *)
Theorem regeneration_frame
        (options : BackupCodeOptions.t) (ctx : Context.t)
        (password : string) (w : World) :
  Forall2 (same_row_but_blob_of (id (Context.session_user ctx)))
          (rows w)
          (rows (snd (generateBackupCodes_endpoint options ctx password w))).
Proof.
  unfold generateBackupCodes_endpoint, andThen, lift, throw.
  destruct (negb (twoFactorEnabled (Context.session_user ctx)));
    [apply same_rows_refl|].
  destruct (Context.checkPassword ctx _ password) as [[]|e0];
    [|apply same_rows_refl].
  unfold withRandom at 1.
  destruct (generateBackupCodes (Context.secret ctx) options (random w))
    as [g e1].
  unfold storeBackupCodes, withRandom, lift, ret, update.
  destruct (BackupCodeOptions.storeBackupCodes options) as [[| |enc dec]|].
  - simpl. apply update_frame.
  - destruct (symmetricEncrypt _ _ _) as [sealed e2]. simpl. apply update_frame.
  - destruct (enc (Generated.encryptedBackupCodes g)) as [sealed|e2]; simpl.
    + apply update_frame.
    + apply same_rows_refl.
  - simpl. apply update_frame.
Qed.

(** X19.  The regeneration endpoint stores what it shows: after a
    successful regeneration for a user who has a record, under any
    strategy whose custom pair, if any, is symmetric, the record of the
    user decodes on the fetch-decode path into the very list of codes
    of the response, and the response has [status: true]. *)
Theorem regeneration_stores_what_it_returns
        (options : BackupCodeOptions.t) (ctx : Context.t)
        (password : string) (w w1 : World) (resp : GenerateResponse) :
  symmetric_strategy (BackupCodeOptions.storeBackupCodes options) ->
  Adapter.findOne (rows w) (id (Context.session_user ctx)) <> None ->
  generateBackupCodes_endpoint options ctx password w = (Ok resp, w1) ->
  generated_status resp = true
  /\ stored_batch options ctx (id (Context.session_user ctx)) w1
     = Some (generated_backupCodes resp).
Proof.
  intros Hsym Hrec E. split.
  - revert E.
    unfold generateBackupCodes_endpoint, andThen, lift, throw.
    destruct (negb (twoFactorEnabled (Context.session_user ctx)));
      [discriminate|].
    destruct (Context.checkPassword ctx _ password) as [[]|e0]; [|discriminate].
    destruct (withRandom _ w) as [[g|e1] w0]; [|discriminate].
    destruct (storeBackupCodes options ctx _ w0) as [[stored|e2] w2];
      [|discriminate].
    unfold update, ret. intros E. now inversion E.
  - destruct (generate_endpoint_ok roundtrip _ _ _ _ _ _ Hsym E)
      as (stored & Hrows & Hdec).
    unfold stored_batch. rewrite Hrows, AdapterFacts.findOne_update.
    destruct (Adapter.findOne (rows w) (id (Context.session_user ctx)))
      as [r0|]; [|congruence].
    simpl. now rewrite Hdec.
Qed.

End ViewAndRegenerate.

(* ------------------------------------------------------------------ *)
(** ** Further properties: runs of verifications under the plain
    strategy *)

Lemma In_remainder (codes : list string) (code x : string) :
  In x (remainder codes code) <-> In x codes /\ x <> code.
Proof.
  unfold remainder. rewrite filter_In.
  destruct (String.eqb_spec x code); simpl; split; intros [I E];
    try discriminate; try contradiction; split; trivial.
Qed.

Lemma unredeemed_remainder (codes presented : list string) (code : string) :
  unredeemed (remainder codes code) presented
  = unredeemed codes (code :: presented).
Proof.
  unfold unredeemed, remainder.
  induction codes as [|x codes IH]; simpl; [reflexivity|].
  rewrite (String.eqb_sym code x).
  destruct (String.eqb x code); simpl; [exact IH|].
  destruct (JS.includes presented x); simpl; [exact IH|].
  now rewrite IH.
Qed.

Lemma unredeemed_absent (codes presented : list string) (code : string) :
  ~ In code codes ->
  unredeemed codes (code :: presented) = unredeemed codes presented.
Proof.
  intros N. unfold unredeemed. apply filter_ext_in.
  intros x I. simpl.
  destruct (String.eqb_spec code x) as [->|D]; [contradiction|reflexivity].
Qed.

Section Runs.
Context `{Crypto}.
Hypothesis roundtrip : decrypt_inverts_encrypt.

Variable options : BackupCodeOptions.t.
Variable ctx : Context.t.
Variable user : User.

Hypothesis plain_strategy :
  BackupCodeOptions.storeBackupCodes options = Some plain
  \/ BackupCodeOptions.storeBackupCodes options = None.
Hypothesis signed_in : Context.verifyTwoFactor ctx = Ok user.

(** One verification under the plain strategy: a code of the stored
    batch is accepted and the record then decodes into the batch
    without it; any other code is refused and nothing changes. *)
Lemma verify_step_plain (code : string) (w : World) (codes : list string) :
  stored_batch options ctx (id user) w = Some codes ->
  (In code codes ->
     exists (r : VerifyResponse) (w1 : World),
       verifyBackupCode_endpoint options ctx (request code) w = (Ok r, w1)
       /\ stored_batch options ctx (id user) w1 = Some (remainder codes code))
  /\ (~ In code codes ->
        verifyBackupCode_endpoint options ctx (request code) w
        = (Throw (APIError UNAUTHORIZED INVALID_BACKUP_CODE), w)).
Proof.
  unfold stored_batch. intros Hs.
  destruct (Adapter.findOne (rows w) (id user)) as [twoFactor|] eqn:Hf;
    [|discriminate].
  destruct (fetch_decode options ctx (TwoFactorTable.backupCodes twoFactor))
    as [[codes'|]|e] eqn:Hd; try discriminate.
  injection Hs as ->.
  pose proof (verify_endpoint_decoded options ctx (request code) w user
                twoFactor codes signed_in Hf Hd) as V.
  change (body_code (request code)) with code in V.
  change (disableSession (request code)) with (@None bool) in V.
  split; intros Hin.
  - apply includes_In in Hin. rewrite Hin in V.
    eexists _, _. split; [exact V|]. cbn [rows].
    rewrite AdapterFacts.findOne_updateMany, Hf. simpl.
    now rewrite (persisted_blob_decodes_plain roundtrip options ctx _ _
                   plain_strategy).
  - destruct (JS.includes codes code) eqn:Ei.
    + apply includes_In in Ei. contradiction.
    + exact V.
Qed.

Lemma redeem_all_plain (presented : list string) :
  forall (w : World) (codes : list string),
    stored_batch options ctx (id user) w = Some codes ->
    stored_batch options ctx (id user) (snd (redeem_all options ctx presented w))
      = Some (unredeemed codes presented)
    /\ NoDup (fst (redeem_all options ctx presented w))
    /\ (forall c : string,
          In c (fst (redeem_all options ctx presented w))
          <-> In c presented /\ In c codes).
Proof.
  induction presented as [|code rest IH]; intros w codes Hs.
  - simpl. split; [|split].
    + rewrite Hs. f_equal. unfold unredeemed. symmetry.
      apply forallb_filter_id. now apply forallb_forall.
    + constructor.
    + intros c. tauto.
  - destruct (verify_step_plain code w codes Hs) as [Hit Miss].
    destruct (in_dec string_dec code codes) as [I|N].
    + destruct (Hit I) as (r & w1 & E & Hs1).
      cbn [redeem_all]. rewrite E.
      destruct (IH w1 _ Hs1) as (Hb & Hn & Hi).
      destruct (redeem_all options ctx rest w1) as [accepted w2].
      cbn [fst snd] in *. split; [|split].
      * now rewrite Hb, unredeemed_remainder.
      * constructor; [|exact Hn].
        intros A. apply Hi in A. destruct A as [_ A].
        now apply remainder_excludes in A.
      * intros c. simpl. rewrite Hi, In_remainder. split.
        -- intros [<- | (Ir & Ic & _)]; tauto.
        -- intros [[<- | Ir] Ic]; [tauto|].
           destruct (string_dec code c) as [->|D]; [tauto|].
           right. repeat split; trivial. congruence.
    + cbn [redeem_all]. rewrite (Miss N).
      destruct (IH w codes Hs) as (Hb & Hn & Hi).
      destruct (redeem_all options ctx rest w) as [accepted w2].
      cbn [fst snd] in *. split; [|split].
      * now rewrite Hb, unredeemed_absent.
      * exact Hn.
      * intros c. rewrite Hi. simpl. split.
        -- tauto.
        -- intros [[<- | Ir] Ic]; [contradiction|tauto].
Qed.

(** X20.  Single use over sequential runs under the plain strategy:
    when the requests are handled one after the other, each completed
    before the next starts, then however often and in whatever order
    codes are presented, no code is accepted twice, and the accepted
    codes are exactly the presented codes that were in the stored
    batch at the start.  (Overlapping requests are outside this
    statement.) *)
Theorem codes_are_accepted_at_most_once
        (presented : list string) (w : World) (codes : list string) :
  stored_batch options ctx (id user) w = Some codes ->
  NoDup (fst (redeem_all options ctx presented w))
  /\ (forall c : string,
        In c (fst (redeem_all options ctx presented w))
        <-> In c presented /\ In c codes).
Proof.
  intros Hs. now destruct (redeem_all_plain presented w codes Hs) as (_ & Hn & Hi).
Qed.

(** X21.  After a sequential run under the plain strategy, the requests
    handled one after the other, each completed before the next starts,
    the record decodes into the codes of the initial batch that were
    never presented, in their original order; the order of the requests
    and their repetitions make no difference to what is left.
    (Overlapping requests are outside this statement.) *)
Theorem batch_after_redemptions
        (presented : list string) (w : World) (codes : list string) :
  stored_batch options ctx (id user) w = Some codes ->
  stored_batch options ctx (id user) (snd (redeem_all options ctx presented w))
  = Some (filter (fun code => negb (JS.includes presented code)) codes).
Proof.
  intros Hs. now destruct (redeem_all_plain presented w codes Hs) as (Hb & _ & _).
Qed.

End Runs.

(* ------------------------------------------------------------------ *)
(** ** Further properties: overlapping verifications *)

Section Overlap.
Context `{Crypto}.
Hypothesis roundtrip : decrypt_inverts_encrypt.

(** The two steps, one after the other, are the handler. *)
Lemma verify_read_then_write (options : BackupCodeOptions.t)
      (ctx : Context.t) (body : VerifyBody) (w : World) :
  verifyBackupCode_endpoint options ctx body w
  = andThen (verify_read options ctx body) verify_write w.
Proof.
  unfold verifyBackupCode_endpoint, verify_read, verify_write, andThen, lift,
    findOne, throw.
  destruct (Context.verifyTwoFactor ctx) as [user|e0]; [|reflexivity].
  destruct (Adapter.findOne (rows w) (id user)) as [twoFactor|]; [|reflexivity].
  destruct (decryptBackupCodes options ctx (TwoFactorTable.backupCodes twoFactor))
    as [decrypted|e1]; [|reflexivity].
  destruct (verifyBackupCode _ _) as [validate|e2]; [|reflexivity].
  destruct (negb (Validation.status validate)); [reflexivity|].
  unfold withRandom, updateMany, ret.
  destruct (symmetricEncrypt _ _ _) as [blob e'].
  reflexivity.
Qed.

(** The first step once the record is fetched and its blob decoded. *)
Lemma verify_read_decoded (options : BackupCodeOptions.t)
      (ctx : Context.t) (body : VerifyBody) (w : World)
      (user : User) (twoFactor : TwoFactorTable.t) (codes : list string) :
  Context.verifyTwoFactor ctx = Ok user ->
  Adapter.findOne (rows w) (id user) = Some twoFactor ->
  fetch_decode options ctx (TwoFactorTable.backupCodes twoFactor)
    = Ok (Some codes) ->
  JS.includes codes (body_code body) = true ->
  verify_read options ctx body w
  = (Ok {| pending_user := user;
           pending_backupCodes :=
             fst (symmetricEncrypt (Context.secret ctx)
                    (JSON.stringify (remainder codes (body_code body)))
                    (random w));
           pending_disableSession := disableSession body |},
     {| rows := rows w;
        random :=
          snd (symmetricEncrypt (Context.secret ctx)
                 (JSON.stringify (remainder codes (body_code body)))
                 (random w)) |}).
Proof.
  intros Hu Hf Hd Hi.
  unfold verify_read, andThen, lift, findOne, fetch_decode in *.
  rewrite Hu, Hf.
  destruct (decryptBackupCodes options ctx (TwoFactorTable.backupCodes twoFactor))
    as [decrypted|e]; simpl in Hd; [|discriminate].
  rewrite (verifyBackupCode_decoded _ _ _ _ Hd). simpl. rewrite Hi. simpl.
  unfold withRandom, ret.
  destruct (symmetricEncrypt (Context.secret ctx)
              (JSON.stringify (remainder codes (body_code body))) (random w))
    as [blob e'].
  reflexivity.
Qed.

(** X22.  Lost update.  Under the plain strategy, when two verification
    requests of one user overlap so that both read the record before
    either writes, and both present codes of the stored batch, then
    both are accepted, the same code twice if they present the same
    code, and the record ends as the batch without the code of the
    request that wrote last: a different code redeemed by the other
    request is back in the stored batch. *)
Theorem overlapping_requests_lose_an_update
        (options : BackupCodeOptions.t) (ctx : Context.t) (user : User)
        (first second : VerifyBody) (w : World) (codes : list string) :
  BackupCodeOptions.storeBackupCodes options = Some plain
  \/ BackupCodeOptions.storeBackupCodes options = None ->
  Context.verifyTwoFactor ctx = Ok user ->
  stored_batch options ctx (id user) w = Some codes ->
  In (body_code first) codes ->
  In (body_code second) codes ->
  exists (r1 r2 : VerifyResponse) (w' : World),
    overlapped options ctx first second w = ((Ok r1, Ok r2), w')
    /\ stored_batch options ctx (id user) w'
       = Some (filter (fun c => negb (String.eqb c (body_code second))) codes)
    /\ (body_code first <> body_code second ->
        exists left : list string,
          stored_batch options ctx (id user) w' = Some left
          /\ In (body_code first) left).
Proof.
  intros Hplain Hu Hs I1 I2.
  unfold stored_batch in Hs.
  destruct (Adapter.findOne (rows w) (id user)) as [twoFactor|] eqn:Hf;
    [|discriminate].
  destruct (fetch_decode options ctx (TwoFactorTable.backupCodes twoFactor))
    as [[codes'|]|e] eqn:Hd; try discriminate.
  injection Hs as ->.
  apply includes_In in I1. apply includes_In in I2.
  unfold overlapped.
  rewrite (verify_read_decoded options ctx first w user twoFactor codes
             Hu Hf Hd I1).
  rewrite (verify_read_decoded options ctx second
             {| rows := rows w;
                random :=
                  snd (symmetricEncrypt (Context.secret ctx)
                         (JSON.stringify (remainder codes (body_code first)))
                         (random w)) |}
             user twoFactor codes Hu Hf Hd I2).
  cbn [rows random].
  unfold verify_write, andThen, updateMany, ret.
  cbn [pending_user pending_backupCodes pending_disableSession rows random].
  set (blob1 := fst (symmetricEncrypt (Context.secret ctx)
                       (JSON.stringify (remainder codes (body_code first))) _)).
  set (blob2 := fst (symmetricEncrypt (Context.secret ctx)
                       (JSON.stringify (remainder codes (body_code second))) _)).
  assert (Hleft :
            stored_batch options ctx (id user)
              {| rows := Adapter.updateMany
                           (Adapter.updateMany (rows w) (id user) blob1)
                           (id user) blob2;
                 random :=
                   snd (symmetricEncrypt (Context.secret ctx)
                          (JSON.stringify (remainder codes (body_code second)))
                          (snd (symmetricEncrypt (Context.secret ctx)
                                  (JSON.stringify
                                     (remainder codes (body_code first)))
                                  (random w)))) |}
            = Some (remainder codes (body_code second))).
  { unfold stored_batch. cbn [rows].
    rewrite !AdapterFacts.findOne_updateMany, Hf. simpl.
    unfold blob2.
    now rewrite (persisted_blob_decodes_plain roundtrip options ctx _ _ Hplain). }
  destruct (disableSession first) as [[|]|], (disableSession second) as [[|]|];
    (eexists _, _, _; split; [reflexivity|]; split; [exact Hleft|];
     intros D; eexists; split; [exact Hleft|];
     apply In_remainder; split; [now apply includes_In|exact D]).
Qed.

End Overlap.

(* ------------------------------------------------------------------ *)
(** ** Instances of the further properties *)

Module Instances.
Import Scenario Cases.
#[local] Existing Instance Reference.crypto.

Lemma format_short_witness :
  String.length "abc" <= 5 /\ format "abc" = "abc-".
Proof.
  split; [simpl; lia|].
  apply (format_short "abc"). simpl; lia.
Defined.

Lemma generated_batch_decrypts_witness :
  getBackupCodes
    (Generated.encryptedBackupCodes
       (fst (generateBackupCodes secret BackupCodeOptions.undefined spelled_draws)))
    secret
  = Ok (Some (Generated.backupCodes
                (fst (generateBackupCodes secret BackupCodeOptions.undefined
                        spelled_draws)))).
Proof.
  exact (generated_batch_decrypts ReferenceFacts.reference_roundtrip secret
           BackupCodeOptions.undefined spelled_draws).
Defined.

Lemma verifyBackupCode_status_witness :
  getBackupCodes sealed_batch secret = Ok (Some batch)
  /\ exists v : Validation.t,
       verifyBackupCode (VerifyData.make sealed_batch "old00-code1") secret = Ok v
       /\ (Validation.status v = true <-> In "old00-code1" batch)
       /\ (~ In "old00-code1" batch -> Validation.updated v = Some batch).
Proof.
  split; [vm_compute; reflexivity|].
  apply (verifyBackupCode_status sealed_batch "old00-code1" secret batch).
  vm_compute; reflexivity.
Defined.

Lemma verifyBackupCode_keeps_other_codes_witness :
  getBackupCodes sealed_batch secret = Ok (Some batch)
  /\ exists (status : bool) (updated : list string),
       verifyBackupCode (VerifyData.make sealed_batch "h8Vc5-Nq6Ys") secret
         = Ok (Validation.make status (Some updated))
       /\ forall c : string,
            c <> "h8Vc5-Nq6Ys" ->
            count_occ string_dec updated c = count_occ string_dec batch c.
Proof.
  split; [vm_compute; reflexivity|].
  apply (verifyBackupCode_keeps_other_codes sealed_batch "h8Vc5-Nq6Ys" secret batch).
  vm_compute; reflexivity.
Defined.

Lemma verifyBackupCode_unique_hit_witness :
  exists updated : list string,
    verifyBackupCode (VerifyData.make sealed_batch "h8Vc5-Nq6Ys") secret
      = Ok (Validation.make true (Some updated))
    /\ updated = (firstn 2 batch ++ skipn 3 batch)%list
    /\ S (List.length updated) = List.length batch
    /\ NoDup updated.
Proof.
  apply (verifyBackupCode_unique_hit sealed_batch "h8Vc5-Nq6Ys" secret batch 2).
  - vm_compute; reflexivity.
  - unfold batch.
    repeat (constructor; [simpl; intuition discriminate|]). constructor.
  - reflexivity.
Defined.

Lemma verification_without_record_witness :
  Adapter.findOne (rows stranger) "alice" = None
  /\ verifyBackupCode_endpoint (options plain) ctx (body "h8Vc5-Nq6Ys") stranger
     = (Throw (APIError BAD_REQUEST BACKUP_CODES_NOT_ENABLED), stranger).
Proof.
  split; [reflexivity|].
  apply (verification_without_record (options plain) ctx (body "h8Vc5-Nq6Ys")
           stranger alice); reflexivity.
Defined.

Lemma verification_of_exhausted_batch_witness :
  stored_batch (options plain) ctx "alice" exhausted = Some []
  /\ verifyBackupCode_endpoint (options plain) ctx (body "h8Vc5-Nq6Ys") exhausted
     = (Throw (APIError UNAUTHORIZED INVALID_BACKUP_CODE), exhausted).
Proof.
  split; [vm_compute; reflexivity|].
  apply (verification_of_exhausted_batch (options plain) ctx (body "h8Vc5-Nq6Ys")
           exhausted alice
           (TwoFactorTable.make "alice" "totp-alice"
              (fst (Reference.symmetricEncrypt secret (JSON.stringify []) [])))).
  - reflexivity.
  - vm_compute; reflexivity.
  - vm_compute; reflexivity.
Defined.

Lemma verification_success_inversion_witness :
  exists (user : User) (twoFactor : TwoFactorTable.t) (codes : list string),
    Context.verifyTwoFactor ctx = Ok user
    /\ Adapter.findOne (rows (enrolled encrypted)) (id user) = Some twoFactor
    /\ fetch_decode (options encrypted) ctx (TwoFactorTable.backupCodes twoFactor)
       = Ok (Some codes)
    /\ In "h8Vc5-Nq6Ys" codes
    /\ rows (redeemed encrypted)
       = Adapter.updateMany (rows (enrolled encrypted)) (id user)
           (fst (symmetricEncrypt (Context.secret ctx)
                   (JSON.stringify
                      (filter (fun c => negb (String.eqb c "h8Vc5-Nq6Ys")) codes))
                   (random (enrolled encrypted))))
    /\ random (redeemed encrypted)
       = snd (symmetricEncrypt (Context.secret ctx)
                (JSON.stringify
                   (filter (fun c => negb (String.eqb c "h8Vc5-Nq6Ys")) codes))
                (random (enrolled encrypted))).
Proof.
  apply (verification_success_inversion (options encrypted) ctx
           (body "h8Vc5-Nq6Ys") (enrolled encrypted) (redeemed encrypted)
           (Valid alice)).
  vm_compute; reflexivity.
Defined.

Lemma verification_frame_witness :
  Forall2 (same_row_but_blob_of "alice")
          (rows (enrolled plain))
          (rows (snd (verifyBackupCode_endpoint (options plain) ctx
                        (body "h8Vc5-Nq6Ys") (enrolled plain)))).
Proof.
  apply (verification_frame (options plain) ctx (body "h8Vc5-Nq6Ys")
           (enrolled plain) alice).
  reflexivity.
Defined.

Lemma view_not_enabled_witness :
  Adapter.findOne (rows stranger) "alice" = None
  /\ viewBackupCodes_endpoint (options plain) ctx "alice" stranger
     = (Throw (APIError BAD_REQUEST BACKUP_CODES_NOT_ENABLED), stranger).
Proof.
  split; [reflexivity|].
  apply (view_not_enabled (options plain) ctx "alice" stranger).
  left. reflexivity.
Defined.

Lemma failed_regeneration_leaves_rows_witness :
  generateBackupCodes_endpoint (options (custom broken unwrap)) ctx "password"
    initial
  = (Throw CustomError,
     snd (generateBackupCodes_endpoint (options (custom broken unwrap)) ctx
            "password" initial))
  /\ rows (snd (generateBackupCodes_endpoint (options (custom broken unwrap)) ctx
                  "password" initial))
     = rows initial.
Proof.
  split; [vm_compute; reflexivity|].
  apply (failed_regeneration_leaves_rows (options (custom broken unwrap)) ctx
           "password" initial _ CustomError).
  vm_compute; reflexivity.
Defined.

Lemma regeneration_guards_witness :
  generateBackupCodes_endpoint (options plain) ctx_disabled "password" initial
  = (Throw (APIError BAD_REQUEST TWO_FACTOR_NOT_ENABLED), initial)
  /\ generateBackupCodes_endpoint (options plain) ctx_wrong_password "password"
       initial
     = (Throw PasswordError, initial).
Proof.
  split.
  - apply (proj1 (regeneration_guards (options plain) ctx_disabled "password"
                    initial)).
    reflexivity.
  - apply (proj2 (regeneration_guards (options plain) ctx_wrong_password
                    "password" initial)); reflexivity.
Defined.

Lemma regeneration_without_record_witness :
  generateBackupCodes_endpoint (options plain) ctx "password" stranger
  = (Ok {| generated_status := true; generated_backupCodes := batch |},
     snd (generateBackupCodes_endpoint (options plain) ctx "password" stranger))
  /\ rows (snd (generateBackupCodes_endpoint (options plain) ctx "password"
                  stranger))
     = rows stranger
  /\ verifyBackupCode_endpoint (options plain) ctx (body "h8Vc5-Nq6Ys")
       (snd (generateBackupCodes_endpoint (options plain) ctx "password" stranger))
     = (Throw (APIError BAD_REQUEST BACKUP_CODES_NOT_ENABLED),
        snd (generateBackupCodes_endpoint (options plain) ctx "password" stranger)).
Proof.
  split; [vm_compute; reflexivity|].
  apply (regeneration_without_record (options plain) ctx ctx "password" stranger
           _ {| generated_status := true; generated_backupCodes := batch |}
           (body "h8Vc5-Nq6Ys")).
  - reflexivity.
  - vm_compute; reflexivity.
  - reflexivity.
Defined.

Lemma regeneration_stores_what_it_returns_witness :
  generated_status {| generated_status := true; generated_backupCodes := batch |}
  = true
  /\ stored_batch (options (custom wrap unwrap)) ctx "alice"
       (enrolled (custom wrap unwrap))
     = Some batch.
Proof.
  apply (regeneration_stores_what_it_returns ReferenceFacts.reference_roundtrip
           (options (custom wrap unwrap)) ctx "password" initial
           (enrolled (custom wrap unwrap))
           {| generated_status := true; generated_backupCodes := batch |}).
  - exact ReferenceFacts.wrap_unwrap.
  - vm_compute; discriminate.
  - vm_compute; reflexivity.
Defined.

Lemma codes_are_accepted_at_most_once_witness :
  fst (redeem_all (options plain) ctx presented (enrolled plain))
  = ["h8Vc5-Nq6Ys"; "k3Qp9-Zt41a"]
  /\ NoDup (fst (redeem_all (options plain) ctx presented (enrolled plain)))
  /\ (forall c : string,
        In c (fst (redeem_all (options plain) ctx presented (enrolled plain)))
        <-> In c presented /\ In c batch).
Proof.
  split; [vm_compute; reflexivity|].
  apply (codes_are_accepted_at_most_once ReferenceFacts.reference_roundtrip
           (options plain) ctx alice (or_introl eq_refl) eq_refl
           presented (enrolled plain) batch).
  vm_compute; reflexivity.
Defined.

Lemma batch_after_redemptions_witness :
  stored_batch (options plain) ctx "alice"
    (snd (redeem_all (options plain) ctx presented (enrolled plain)))
  = Some (filter (fun code => negb (JS.includes presented code)) batch).
Proof.
  apply (batch_after_redemptions ReferenceFacts.reference_roundtrip
           (options plain) ctx alice (or_introl eq_refl) eq_refl
           presented (enrolled plain) batch).
  vm_compute; reflexivity.
Defined.

Lemma overlapping_requests_lose_an_update_witness :
  fst (overlapped (options plain) ctx (body "h8Vc5-Nq6Ys") (body "h8Vc5-Nq6Ys")
         (enrolled plain))
  = (Ok (Valid alice), Ok (Valid alice))
  /\ exists (r1 r2 : VerifyResponse) (w' : World),
       overlapped (options plain) ctx (body "h8Vc5-Nq6Ys") (body "k3Qp9-Zt41a")
         (enrolled plain)
       = ((Ok r1, Ok r2), w')
       /\ stored_batch (options plain) ctx (id alice) w'
          = Some (filter (fun c => negb (String.eqb c "k3Qp9-Zt41a")) batch)
       /\ ((body_code (body "h8Vc5-Nq6Ys") <> body_code (body "k3Qp9-Zt41a")) ->
           exists left : list string,
             stored_batch (options plain) ctx (id alice) w' = Some left
             /\ In "h8Vc5-Nq6Ys" left).
Proof.
  split; [vm_compute; reflexivity|].
  apply (overlapping_requests_lose_an_update ReferenceFacts.reference_roundtrip
           (options plain) ctx alice (body "h8Vc5-Nq6Ys") (body "k3Qp9-Zt41a")
           (enrolled plain) batch).
  - left. reflexivity.
  - reflexivity.
  - vm_compute; reflexivity.
  - vm_compute; tauto.
  - vm_compute; tauto.
Defined.

End Instances.
